(** * Order-service: the create-order orchestration

    A shallow embedding of [order-service/app/main.py] together with the
    tables of [models.py] and the request schemas of [schemas.py].

    The orchestration talks to five remote collaborators through an HTTP
    client and to a relational store through an ORM session.  Both are kept
    explicit:

    - a [World] answers every outbound request, either with a reply (a
      status code and a body) or with a transport failure, which the HTTP
      client turns into an exception;
    - a [State] carries the session's working copy of the tables, the
      committed tables, the list of committed snapshots, the log of outbound
      requests and the metrics counter.

    Python exceptions are the [Raise] results of a small state-and-error
    monad.  Python floats and Float columns are binary64 floats, and
    [float(x)] of an integer rounds to the nearest one. *)

From Stdlib Require Import ZArith PrimFloat SpecFloat FloatOps Sorted.
From stdpp Require Import base option list gmap strings pretty fin_maps.

Local Open Scope Z_scope.
Local Open Scope string_scope.

(** ** schemas.py *)

Module schemas.

Record OrderItemRequest := {
  item_id : Z;
  quantity : Z;
}.

Record CreateOrderRequest := {
  customer_id : Z;
  restaurant_id : Z;
  address_id : option Z;
  items : list OrderItemRequest;
  payment_method : string;
  customer_email : option string;
}.

End schemas.

(** ** models.py *)

Module models.

Record Order := {
  order_id : Z;
  customer_id : Z;
  restaurant_id : Z;
  address_id : option Z;
  order_status : string;
  order_total : float;
  payment_status : string;
  created_at : Z;
}.

Record OrderItem := {
  order_item_id : Z;
  oi_order_id : Z;
  item_id : Z;
  quantity : Z;
  price : float;
}.

Definition with_order_status (o : Order) (s : string) : Order :=
  {| order_id := order_id o; customer_id := customer_id o;
     restaurant_id := restaurant_id o; address_id := address_id o;
     order_status := s; order_total := order_total o;
     payment_status := payment_status o; created_at := created_at o |}.

Definition with_payment_status (o : Order) (s : string) : Order :=
  {| order_id := order_id o; customer_id := customer_id o;
     restaurant_id := restaurant_id o; address_id := address_id o;
     order_status := order_status o; order_total := order_total o;
     payment_status := s; created_at := created_at o |}.

End models.

(** ** The relational store and the ORM session *)

(** Modelled from the spec: the module [db] ([init_db], [SessionLocal]) is
    not part of the sources.  The spec's OrderRepository is "transactional
    storage for Order and OrderItem entities" whose identifiers are
    "assigned at creation by the repository"; the two tables of [models.py]
    are kept as they are declared, and a new row gets the successor of the
    largest key in its table. *)
Record Db := {
  orders : gmap Z models.Order;
  order_items : list models.OrderItem;
}.

Definition empty_db : Db := {| orders := ∅; order_items := [] |}.

Definition next_order_id (d : Db) : Z :=
  1 + map_fold (λ k _ acc, Z.max k acc) 0 (orders d).

Definition next_order_item_id (l : list models.OrderItem) : Z :=
  1 + foldr Z.max 0 (models.order_item_id <$> l).

(** The [items] relationship of an Order: the rows of [order_items] whose
    foreign key is the order's id. *)
Definition items_of (d : Db) (oid : Z) : list models.OrderItem :=
  filter (λ oi, models.oi_order_id oi = oid) (order_items d).

(** Referential integrity of [order_items.order_id]. *)
Definition db_wf (d : Db) : Prop :=
  ∀ oi, oi ∈ order_items d → is_Some (orders d !! models.oi_order_id oi).

(** ** Outbound HTTP *)

(** A JSON number as Python reads it: an integer literal is an int of any
    size, every other number a binary64 float. *)
Inductive JNumber :=
| JInt (z : Z)
| JFloat (f : float).

(** The binary64 float nearest to an integer, ties to even; integers beyond
    the range give an infinity. *)
Definition float_of_Z (z : Z) : float :=
  SF2Prim (binary_normalize prec emax z 0 false).

(** The value of [float(x)], when there is one: an int that is too large
    has none. *)
Definition float_of_number (x : JNumber) : option float :=
  match x with
  | JFloat f => Some f
  | JInt z =>
      if PrimFloat.is_infinity (float_of_Z z) then None
      else Some (float_of_Z z)
  end.

(** A JSON object seen through the keys the service reads.  A key is either
    absent or holds a value of the type the collaborator's contract gives
    it.  A priced item may lack any of its keys; its unit_price is a float,
    as the Float column and [OrderItemRead] declare it, and its total is
    whatever number [float] is then applied to. *)
Record ItemDetail := {
  d_item_id : option Z;
  d_quantity : option Z;
  d_unit_price : option float;
}.

Record JsonObject := {
  j_email : option string;
  j_addresses : option (list Z);
  j_valid : option bool;
  j_reason : option string;
  j_total : option JNumber;
  j_items : option (list ItemDetail);
  j_status : option string;
}.

(** A reply: its status code, and its body when that is a JSON object
    ([None]: the body does not decode to an object, so reading it raises). *)
Record Response := {
  status_code : Z;
  body : option JsonObject;
}.

(** What a request meets: a reply, or a transport failure (timeout,
    connection error), which [httpx] raises as an exception. *)
Inductive Outcome :=
| Replied (r : Response)
| TransportError.

Record ChargePayload := {
  c_order_id : Z;
  c_amount : float;
  c_method : string;
  c_reference : string;
  c_force_fail : bool;
}.

Record EmailPayload := {
  e_event_type : string;
  e_recipient : string;
  e_subject : string;
  e_message : string;
  e_correlation_id : string;
}.

(** The five endpoints, each with its request data and its headers. *)
Inductive Request :=
| GetCustomer (customer_id : Z) (headers : gmap string string)
| PostValidateItems (restaurant_id : Z) (items : list schemas.OrderItemRequest)
    (headers : gmap string string)
| PostCharge (payload : ChargePayload) (headers : gmap string string)
| PostAssign (order_id : Z) (headers : gmap string string)
| PostEmail (payload : EmailPayload) (headers : gmap string string).

Definition request_headers (r : Request) : gmap string string :=
  match r with
  | GetCustomer _ h | PostValidateItems _ _ h | PostCharge _ h
  | PostAssign _ h | PostEmail _ h => h
  end.

Definition is_customer_lookup (r : Request) : bool :=
  match r with GetCustomer _ _ => true | _ => false end.

Definition is_validate_items (r : Request) : bool :=
  match r with PostValidateItems _ _ _ => true | _ => false end.

Definition is_charge (r : Request) : bool :=
  match r with PostCharge _ _ => true | _ => false end.

Definition is_assign (r : Request) : bool :=
  match r with PostAssign _ _ => true | _ => false end.

(** Everything outside the process: the collaborators, the clock, the
    notification URL of the environment and the printing of floats. *)
Record World := {
  respond : Request → Outcome;
  utcnow : Z;
  NOTIFICATION_SERVICE_URL : string;
  str_float : float → string;
}.

(** ** Exceptions and the monad *)

Record Detail := {
  code : string;
  reason : option string;
  detail_order_id : option Z;
  correlationId : string;
}.

Definition detail (c cid : string) : Detail :=
  {| code := c; reason := None; detail_order_id := None; correlationId := cid |}.

Inductive Exception :=
| HTTPException (status : Z) (d : Detail)
| TransportFailure
| BodyError
| KeyError (key : string)
| OverflowError.

(** The status FastAPI answers with when the handler raises. *)
Definition http_status (e : Exception) : Z :=
  match e with
  | HTTPException s _ => s
  | _ => 500
  end.

Record State := {
  db_sess : Db;
  database : Db;
  commits : list Db;
  outbound : list Request;
  ORDERS_CREATED : list string;
}.

Inductive Result (A : Type) :=
| Return (a : A)
| Raise (e : Exception).
Arguments Return {A} a.
Arguments Raise {A} e.

Definition M (A : Type) : Type := State → Result A * State.

Definition ret {A} (a : A) : M A := λ st, (Return a, st).

Definition raise {A} (e : Exception) : M A := λ st, (Raise e, st).

Definition bind {A B} (c : M A) (k : A → M B) : M B :=
  λ st, match c st with
        | (Return a, st') => k a st'
        | (Raise e, st') => (Raise e, st')
        end.

Declare Scope m_scope.
Delimit Scope m_scope with M.
Notation "x <- c ;; k" := (bind c (λ x, k))
  (at level 100, c at next level, right associativity) : m_scope.
Notation "c ;;; k" := (bind c (λ _, k))
  (at level 100, right associativity) : m_scope.
Local Open Scope m_scope.

(** [try: ... except Exception: pass] *)
Definition swallow {A} (c : M A) : M unit :=
  λ st, (Return tt, snd (c st)).

(** Python truthiness of an optional string. *)
Definition truthy (s : option string) : bool :=
  match s with
  | Some s => negb (String.eqb s "")
  | None => false
  end.

(** *** The HTTP client *)

Definition client_send (w : World) (req : Request) : M Response :=
  λ st,
    let st' := {| db_sess := db_sess st; database := database st;
                  commits := commits st; outbound := outbound st ++ [req];
                  ORDERS_CREATED := ORDERS_CREATED st |} in
    match respond w req with
    | Replied r => (Return r, st')
    | TransportError => (Raise TransportFailure, st')
    end.

(** [r.json()] followed by the first attribute access. *)
Definition json (r : Response) : M JsonObject :=
  match body r with
  | Some o => ret o
  | None => raise BodyError
  end.

(** [v[key]] *)
Definition getitem {A} (key : string) (field : option A) : M A :=
  match field with
  | Some x => ret x
  | None => raise (KeyError key)
  end.

(** [float(x)] *)
Definition py_float (x : JNumber) : M float :=
  match float_of_number x with
  | Some f => ret f
  | None => raise OverflowError
  end.

(** *** The session *)

Definition set_session (d : Db) : M unit :=
  λ st, (Return tt,
         {| db_sess := d; database := database st; commits := commits st;
            outbound := outbound st; ORDERS_CREATED := ORDERS_CREATED st |}).

Definition get_session : M Db := λ st, (Return (db_sess st), st).

(** [db_sess.add(order); db_sess.flush()]: the row enters the session and
    receives its key. *)
Definition add_order_flush (o : models.Order) : M models.Order :=
  d <- get_session ;;
  let oid := next_order_id d in
  let o' := {| models.order_id := oid;
               models.customer_id := models.customer_id o;
               models.restaurant_id := models.restaurant_id o;
               models.address_id := models.address_id o;
               models.order_status := models.order_status o;
               models.order_total := models.order_total o;
               models.payment_status := models.payment_status o;
               models.created_at := models.created_at o |} in
  set_session {| orders := <[oid := o']> (orders d);
                 order_items := order_items d |} ;;;
  ret o'.

(** [db_sess.add(oi)] *)
Definition add_item (oi : models.OrderItem) : M unit :=
  d <- get_session ;;
  let oi' := {| models.order_item_id := next_order_item_id (order_items d);
                models.oi_order_id := models.oi_order_id oi;
                models.item_id := models.item_id oi;
                models.quantity := models.quantity oi;
                models.price := models.price oi |} in
  set_session {| orders := orders d; order_items := order_items d ++ [oi'] |}.

(** An attribute assignment on the ORM object [order]: the object is the
    session's row, so the session sees the new value at once. *)
Definition assign (o : models.Order) : M models.Order :=
  d <- get_session ;;
  set_session {| orders := <[models.order_id o := o]> (orders d);
                 order_items := order_items d |} ;;;
  ret o.

(** [db_sess.commit()]: the session's tables become the stored ones. *)
Definition commit : M unit :=
  λ st, (Return tt,
         {| db_sess := db_sess st; database := db_sess st;
            commits := commits st ++ [db_sess st];
            outbound := outbound st; ORDERS_CREATED := ORDERS_CREATED st |}).

(** [ORDERS_CREATED.labels(l).inc()] *)
Definition inc_orders_created (l : string) : M unit :=
  λ st, (Return tt,
         {| db_sess := db_sess st; database := database st;
            commits := commits st; outbound := outbound st;
            ORDERS_CREATED := ORDERS_CREATED st ++ [l] |}).

(** [db_sess.refresh(order)]: re-reads the row the session has just written;
    within a request nothing else writes to it. *)
Definition refresh (o : models.Order) : M models.Order := ret o.

(** [for x in l: body(x)] *)
Fixpoint for_each {A} (l : list A) (body : A → M unit) : M unit :=
  match l with
  | [] => ret tt
  | x :: l' => body x ;;; for_each l' body
  end.

(** ** main.py *)

(** *** Helper: customer and address validation *)

Definition customer_request (customer_id : Z) (cid : string) : Request :=
  GetCustomer customer_id {["X-Correlation-Id" := cid]}.

Definition validate_customer_and_address (w : World) (customer_id : Z)
    (address_id : option Z) (cid : string) : M (option string) :=
  r <- client_send w (customer_request customer_id cid) ;;
  (if negb (Z.eqb (status_code r) 200)
   then raise (HTTPException 400 (detail "INVALID_CUSTOMER" cid))
   else ret tt) ;;;
  data <- json r ;;
  match address_id with
  | Some address_id =>
      if negb (existsb (λ a, Z.eqb a address_id) (default [] (j_addresses data)))
      then raise (HTTPException 400 (detail "INVALID_ADDRESS_FOR_CUSTOMER" cid))
      else ret tt
  | None => ret tt
  end ;;;
  ret (j_email data).

(** *** Helper: restaurant and items validation *)

Definition validate_items_request (restaurant_id : Z)
    (items : list schemas.OrderItemRequest) (cid : string) : Request :=
  PostValidateItems restaurant_id
    (map (λ it, {| schemas.item_id := schemas.item_id it;
                   schemas.quantity := schemas.quantity it |}) items)
    {["X-Correlation-Id" := cid]}.

Definition validate_restaurant_and_items (w : World) (restaurant_id : Z)
    (items : list schemas.OrderItemRequest) (cid : string) : M JsonObject :=
  match items with
  | [] => raise (HTTPException 400 (detail "EMPTY_ORDER" cid))
  | _ :: _ =>
      r <- client_send w (validate_items_request restaurant_id items cid) ;;
      (if negb (Z.eqb (status_code r) 200)
       then raise (HTTPException 502 (detail "MENU_VALIDATION_FAILED" cid))
       else ret tt) ;;;
      v <- json r ;;
      (if negb (default false (j_valid v))
       then raise (HTTPException 400
                     {| code := "INVALID_MENU_SELECTION"; reason := j_reason v;
                        detail_order_id := None; correlationId := cid |})
       else ret tt) ;;;
      ret v
  end.

(** *** Helper: payment-service *)

Definition charge_request (order : models.Order) (method : string)
    (email : option string) (cid : string) : Request :=
  let payload :=
    {| c_order_id := models.order_id order;
       c_amount := models.order_total order;
       c_method := method;
       c_reference := "ORDER-" +:+ pretty (models.order_id order);
       c_force_fail := false |} in
  let headers : gmap string string := {["X-Correlation-Id" := cid]} in
  let headers :=
    if truthy email then <["X-Customer-Email" := default "" email]> headers
    else headers in
  let headers :=
    <["Idempotency-Key" :=
        "order-" +:+ pretty (models.order_id order) +:+ "-payment"]> headers in
  PostCharge payload headers.

Definition call_payment_service (w : World) (order : models.Order)
    (method : string) (email : option string) (cid : string) : M bool :=
  r <- client_send w (charge_request order method email cid) ;;
  if Z.eqb (status_code r) 201 then
    data <- json r ;;
    if bool_decide (j_status data = Some "SUCCESS") then ret true
    else ret false
  else ret false.

(** *** Helper: delivery-service *)

Definition assign_request (order_id : Z) (cid : string) : Request :=
  PostAssign order_id {["X-Correlation-Id" := cid]}.

Definition call_delivery_assign (w : World) (order_id : Z) (cid : string)
    : M bool :=
  r <- client_send w (assign_request order_id cid) ;;
  ret (Z.eqb (status_code r) 201).

(** *** Helper: notification-service *)

Definition email_request (event_type : string) (recipient : option string)
    (subject message cid : string) : Request :=
  PostEmail {| e_event_type := event_type;
               e_recipient := default "" recipient;
               e_subject := subject;
               e_message := message;
               e_correlation_id := cid |}
    {["X-Correlation-Id" := cid]}.

Definition notify (w : World) (event_type : string) (recipient : option string)
    (subject message cid : string) : M unit :=
  if negb (negb (String.eqb (NOTIFICATION_SERVICE_URL w) "") && truthy recipient)
  then ret tt
  else
    swallow
      (client_send w (email_request event_type recipient subject message cid)).

(** *** API: create order *)

(** The body of the loop of step 3:
    [oi = models.OrderItem(order_id=..., item_id=d["item_id"],
    quantity=d["quantity"], price=d["unit_price"]); db_sess.add(oi)]. *)
Definition new_order_item (order_id : Z) (d : ItemDetail) : M unit :=
  item_id <- getitem "item_id" (d_item_id d) ;;
  quantity <- getitem "quantity" (d_quantity d) ;;
  price <- getitem "unit_price" (d_unit_price d) ;;
  add_item {| models.order_item_id := 0;
              models.oi_order_id := order_id;
              models.item_id := item_id;
              models.quantity := quantity;
              models.price := price |}.

Definition create_order (w : World) (payload : schemas.CreateOrderRequest)
    (cid : string) : M models.Order :=
  (* 1. Validate customer & address *)
  customer_email <-
    (if truthy (schemas.customer_email payload)
     then ret (schemas.customer_email payload)
     else validate_customer_and_address w (schemas.customer_id payload)
            (schemas.address_id payload) cid) ;;
  (* 2. Validate restaurant & items *)
  valid <- validate_restaurant_and_items w (schemas.restaurant_id payload)
             (schemas.items payload) cid ;;
  total <- (x <- getitem "total" (j_total valid) ;; py_float x) ;;
  items_details <- getitem "items" (j_items valid) ;;
  (* 3. Create order & order_items (initially PENDING_PAYMENT) *)
  order <- add_order_flush
             {| models.order_id := 0;
                models.customer_id := schemas.customer_id payload;
                models.restaurant_id := schemas.restaurant_id payload;
                models.address_id := schemas.address_id payload;
                models.order_status := "PENDING_PAYMENT";
                models.payment_status := "PENDING";
                models.order_total := total;
                models.created_at := utcnow w |} ;;
  for_each items_details
    (new_order_item (models.order_id order)) ;;;
  commit ;;;
  order <- refresh order ;;
  (* 4. Call payment-service *)
  payment_ok <- call_payment_service w order (schemas.payment_method payload)
                  customer_email cid ;;
  if negb payment_ok then
    order <- assign (models.with_order_status order "PAYMENT_FAILED") ;;
    order <- assign (models.with_payment_status order "FAILED") ;;
    commit ;;;
    inc_orders_created "PAYMENT_FAILED" ;;;
    raise (HTTPException 402
             {| code := "PAYMENT_FAILED"; reason := None;
                detail_order_id := Some (models.order_id order);
                correlationId := cid |})
  else
    order <- assign (models.with_payment_status order "SUCCESS") ;;
    order <- assign (models.with_order_status order "CONFIRMED") ;;
    commit ;;;
    order <- refresh order ;;
    inc_orders_created "CONFIRMED" ;;;
    (* 5. Call delivery-service *)
    delivery_ok <- call_delivery_assign w (models.order_id order) cid ;;
    order <-
      (if delivery_ok then
         order <- assign (models.with_order_status order "OUT_FOR_DELIVERY") ;;
         commit ;;;
         refresh order
       else ret order) ;;
    (* 6. Notification to customer *)
    (if truthy customer_email then
       notify w "ORDER_CREATED" customer_email
         ("Order #" +:+ pretty (models.order_id order) +:+ " placed successfully")
         ("Your order total is " +:+ str_float w (models.order_total order)
            +:+ ". Status: " +:+ models.order_status order)
         cid
     else ret tt) ;;;
    refresh order.

(** *** API: get order by id *)

Definition get_order (order_id : Z) (cid : string) : M models.Order :=
  d <- get_session ;;
  match orders d !! order_id with
  | Some order => ret order
  | None => raise (HTTPException 404 (detail "ORDER_NOT_FOUND" cid))
  end.

(** ** One request *)

(** A request starts on a fresh session over the stored tables; when the
    handler is left, by return or by exception, [get_db] closes the
    session, and what the request leaves behind is [database]. *)
Definition fresh_session (d : Db) : State :=
  {| db_sess := d; database := d; commits := []; outbound := [];
     ORDERS_CREATED := [] |}.

Definition post_orders (w : World) (payload : schemas.CreateOrderRequest)
    (cid : string) (d : Db) : Result models.Order * State :=
  create_order w payload cid (fresh_session d).

(** The status code of the answer to [POST /v1/orders]. *)
Definition response_status {A} (r : Result A) : Z :=
  match r with
  | Return _ => 201
  | Raise e => http_status e
  end.

(** The line-item total of the spec: the sum of price times quantity, in
    binary64 arithmetic from the first line on, as
    [sum(i.price * i.quantity for i in items)] computes it. *)
Definition line_total (l : list models.OrderItem) : float :=
  fold_left
    (λ acc oi, (acc + models.price oi * float_of_Z (models.quantity oi))%float)
    l 0%float.

(** The same sum over the priced items of an answer; a missing key counts
    as zero. *)
Definition details_total (l : list ItemDetail) : float :=
  fold_left
    (λ acc x, (acc + default 0%float (d_unit_price x)
                     * float_of_Z (default 0%Z (d_quantity x)))%float)
    l 0%float.

(** The order_status values a flow committed for order [oid], in order. *)
Definition status_trace (oid : Z) (snapshots : list Db) : list string :=
  omap (λ d, models.order_status <$> orders d !! oid) snapshots.

(** The transitions of the order state machine. *)
Inductive transition : string → string → Prop :=
| pay_fail : transition "PENDING_PAYMENT" "PAYMENT_FAILED"
| pay_ok : transition "PENDING_PAYMENT" "CONFIRMED"
| dispatch : transition "CONFIRMED" "OUT_FOR_DELIVERY".

Inductive chain : list string → Prop :=
| chain_one s : chain [s]
| chain_step s t l : transition s t → chain (t :: l) → chain (s :: t :: l).

(** Step 1 lets the request through: it carries a usable e-mail address, or
    the customer service answers 200 with an object whose addresses hold the
    supplied [address_id], if there is one. *)
Definition customer_validated (w : World) (p : schemas.CreateOrderRequest)
    (cid : string) : Prop :=
  truthy (schemas.customer_email p) = true
  ∨ ∃ r data,
      respond w (customer_request (schemas.customer_id p) cid) = Replied r
      ∧ status_code r = 200
      ∧ body r = Some data
      ∧ ∀ a, schemas.address_id p = Some a → a ∈ default [] (j_addresses data).

(** The payment service accepted the charge: 201 and status SUCCESS. *)
Definition charged (r : Response) : Prop :=
  status_code r = 201 ∧ ∃ data, body r = Some data ∧ j_status data = Some "SUCCESS".

(** The payment service answered, and the answer is not a charge: a status
    other than 201, or a 201 object whose status is not SUCCESS. *)
Definition declined (r : Response) : Prop :=
  status_code r ≠ 201
  ∨ ∃ data, body r = Some data ∧ j_status data ≠ Some "SUCCESS".

(** The delivery service took the order: it answered the assignment with
    201. *)
Definition delivery_assigned (w : World) (order_id : Z) (cid : string) : bool :=
  match respond w (assign_request order_id cid) with
  | Replied r => Z.eqb (status_code r) 201
  | TransportError => false
  end.

(** The world [w] with another customer service: customer lookups are
    answered by [f], everything else as in [w]. *)
Definition with_customers (f : Z → gmap string string → Outcome) (w : World)
    : World :=
  {| respond := λ req,
       match req with
       | GetCustomer c h => f c h
       | _ => respond w req
       end;
     utcnow := utcnow w;
     NOTIFICATION_SERVICE_URL := NOTIFICATION_SERVICE_URL w;
     str_float := str_float w |}.

(** The world [w] with another notification service: e-mail requests are
    answered by [f], everything else as in [w]. *)
Definition with_notifications (f : EmailPayload → gmap string string → Outcome)
    (w : World) : World :=
  {| respond := λ req,
       match req with
       | PostEmail e h => f e h
       | _ => respond w req
       end;
     utcnow := utcnow w;
     NOTIFICATION_SERVICE_URL := NOTIFICATION_SERVICE_URL w;
     str_float := str_float w |}.

(** The place of an endpoint in the orchestration. *)
Definition stage (req : Request) : nat :=
  match req with
  | GetCustomer _ _ => 1
  | PostValidateItems _ _ _ => 2
  | PostCharge _ _ => 3
  | PostAssign _ _ => 4
  | PostEmail _ _ => 5
  end.

(** The value of [customer_email] after step 1: the request's own address
    when it has one, else the [email] of the customer's record. *)
Definition contact_email (w : World) (p : schemas.CreateOrderRequest)
    (cid : string) : option string :=
  if truthy (schemas.customer_email p) then schemas.customer_email p
  else match respond w (customer_request (schemas.customer_id p) cid) with
       | Replied r => body r ≫= j_email
       | TransportError => None
       end.

(** The pairs of order_status and payment_status the flow writes. *)
Definition coherent (o : models.Order) : Prop :=
  (models.order_status o = "PENDING_PAYMENT" ∧ models.payment_status o = "PENDING")
  ∨ (models.order_status o = "PAYMENT_FAILED" ∧ models.payment_status o = "FAILED")
  ∨ (models.order_status o = "CONFIRMED" ∧ models.payment_status o = "SUCCESS")
  ∨ (models.order_status o = "OUT_FOR_DELIVERY" ∧ models.payment_status o = "SUCCESS").

(** From [st] to [st'] nothing happened but the sending of [reqs]: the
    session, the store, the commits and the counter are the same. *)
Definition only_sent (st st' : State) (reqs : list Request) : Prop :=
  db_sess st' = db_sess st
  ∧ database st' = database st
  ∧ commits st' = commits st
  ∧ ORDERS_CREATED st' = ORDERS_CREATED st
  ∧ outbound st' = (outbound st ++ reqs)%list.

(** ** Definitions used by the proofs *)

(** What the loop of step 3 does for order [oid]: it appends a row for each
    priced item, and stops with a KeyError at the first one that lacks a
    key. *)
Fixpoint add_rows (oid : Z) (l : list ItemDetail)
    (rows : list models.OrderItem) : Result unit * list models.OrderItem :=
  match l with
  | [] => (Return tt, rows)
  | x :: l' =>
      match d_item_id x, d_quantity x, d_unit_price x with
      | Some i, Some q, Some pr =>
          add_rows oid l'
            (rows ++ [ {| models.order_item_id := next_order_item_id rows;
                          models.oi_order_id := oid;
                          models.item_id := i;
                          models.quantity := q;
                          models.price := pr |} ])
      | None, _, _ => (Raise (KeyError "item_id"), rows)
      | Some _, None, _ => (Raise (KeyError "quantity"), rows)
      | Some _, Some _, None => (Raise (KeyError "unit_price"), rows)
      end
  end.

(** A persisted line item carries the collaborator's detail verbatim. *)
Definition row_of (oid : Z) (oi : models.OrderItem) (x : ItemDetail) : Prop :=
  models.oi_order_id oi = oid ∧ d_item_id x = Some (models.item_id oi)
  ∧ d_quantity x = Some (models.quantity oi)
  ∧ d_unit_price x = Some (models.price oi).

(** [wp c st Q]: running [c] from [st] ends in a result and a state that
    satisfy [Q].  Every computation of [M] is total, so this is a statement
    about the one run there is. *)
Definition wp {A} (c : M A) (st : State) (Q : Result A → State → Prop) : Prop :=
  Q (c st).1 (c st).2.

Definition log (req : Request) (st : State) : State :=
  {| db_sess := db_sess st; database := database st; commits := commits st;
     outbound := outbound st ++ [req]; ORDERS_CREATED := ORDERS_CREATED st |}.

(** ** Sample collaborators and requests *)

Definition reply (status : Z) (o : option JsonObject) : Outcome :=
  Replied {| status_code := status; body := o |}.

(** A world in which each endpoint has one fixed answer. *)
Definition scripted (customer menu charge assignment email : Outcome) : World :=
  {| respond := λ req,
       match req with
       | GetCustomer _ _ => customer
       | PostValidateItems _ _ _ => menu
       | PostCharge _ _ => charge
       | PostAssign _ _ => assignment
       | PostEmail _ _ => email
       end;
     utcnow := 0;
     NOTIFICATION_SERVICE_URL := "http://notification-service:8004";
     str_float := λ f,
       match Prim2SF f with
       | S754_finite s m e =>
           (if s then "-" else "") +:+ pretty (Zpos m) +:+ "p" +:+ pretty e
       | S754_zero s => if s then "-0.0" else "0.0"
       | S754_infinity s => if s then "-inf" else "inf"
       | S754_nan => "nan"
       end |}.

(** Customer 1, who owns address 100. *)
Definition customer_1 : JsonObject :=
  {| j_email := Some "one@example.com"; j_addresses := Some [100];
     j_valid := None; j_reason := None; j_total := None; j_items := None;
     j_status := None |}.

(** Two of item 10 at 5 and one of item 11 at 3, priced by the restaurant
    at [total]. *)
Definition priced (total : Z) : JsonObject :=
  {| j_email := None; j_addresses := None;
     j_valid := Some true; j_reason := None; j_total := Some (JInt total);
     j_items := Some [ {| d_item_id := Some 10; d_quantity := Some 2;
                          d_unit_price := Some 5%float |};
                       {| d_item_id := Some 11; d_quantity := Some 1;
                          d_unit_price := Some 3%float |} ];
     j_status := None |}.

Definition payment (status : string) : JsonObject :=
  {| j_email := None; j_addresses := None; j_valid := None; j_reason := None;
     j_total := None; j_items := None; j_status := Some status |}.

Definition two_lines : list schemas.OrderItemRequest :=
  [ {| schemas.item_id := 10; schemas.quantity := 2 |};
    {| schemas.item_id := 11; schemas.quantity := 1 |} ].

Definition order_request (address : option Z)
    (items : list schemas.OrderItemRequest) (email : option string)
    : schemas.CreateOrderRequest :=
  {| schemas.customer_id := 1; schemas.restaurant_id := 5;
     schemas.address_id := address; schemas.items := items;
     schemas.payment_method := "CARD"; schemas.customer_email := email |}.

(** Every collaborator answers as its contract promises. *)
Definition all_well : World :=
  scripted (reply 200 (Some customer_1)) (reply 200 (Some (priced 13)))
    (reply 201 (Some (payment "SUCCESS"))) (reply 201 None) (reply 200 None).

(** * Properties *)

(** ** The store *)

Lemma map_fold_max_ge (m : gmap Z models.Order) (k : Z) :
  is_Some (m !! k) → (k ≤ map_fold (λ k _ acc, Z.max k acc) 0 m)%Z.
Proof.
  revert k.
  apply (map_fold_weak_ind
           (λ acc (m : gmap Z models.Order), ∀ k, is_Some (m !! k) → (k ≤ acc)%Z)).
  - intros k [x Hx]. by rewrite lookup_empty in Hx.
  - intros i x m' acc Hi IH k Hk.
    destruct (decide (i = k)) as [->|Hne]; [lia|].
    rewrite lookup_insert_ne in Hk by done.
    specialize (IH k Hk). lia.
Qed.

Lemma next_order_id_fresh (d : Db) : orders d !! next_order_id d = None.
Proof.
  destruct (orders d !! next_order_id d) as [o|] eqn:E; [|done].
  assert (is_Some (orders d !! next_order_id d)) as H by (rewrite E; eauto).
  apply map_fold_max_ge in H. unfold next_order_id in H. lia.
Qed.

Lemma for_each_add_item (oid : Z) (l : list ItemDetail) (st : State) :
  for_each l
    (new_order_item oid) st
  = ((add_rows oid l (order_items (db_sess st))).1,
     {| db_sess := {| orders := orders (db_sess st);
                      order_items := (add_rows oid l (order_items (db_sess st))).2 |};
        database := database st; commits := commits st;
        outbound := outbound st; ORDERS_CREATED := ORDERS_CREATED st |}).
Proof.
  revert st. induction l as [|x l IH]; intros [[o i] db cs out oc].
  - reflexivity.
  - cbn [for_each add_rows]. unfold bind at 1. unfold new_order_item at 1.
    unfold getitem, add_item, get_session, set_session, ret, raise, bind.
    destruct (d_item_id x) as [it|]; [|reflexivity].
    destruct (d_quantity x) as [q|]; [|reflexivity].
    destruct (d_unit_price x) as [pr|]; [|reflexivity].
    cbn [db_sess orders order_items database commits outbound ORDERS_CREATED
         models.oi_order_id models.item_id models.quantity models.price].
    by rewrite IH.
Qed.

(** The loop ends in one of two ways. *)
Lemma add_rows_result (oid : Z) (l : list ItemDetail)
    (rows : list models.OrderItem) :
  (∃ rows', add_rows oid l rows = (Return tt, rows'))
  ∨ (∃ k rows', add_rows oid l rows = (Raise (KeyError k), rows')).
Proof.
  revert rows. induction l as [|x l IH]; intros rows; cbn [add_rows].
  - left. by eexists.
  - destruct (d_item_id x); [|right; by eexists _, _].
    destruct (d_quantity x); [|right; by eexists _, _].
    destruct (d_unit_price x); [|right; by eexists _, _].
    apply IH.
Qed.

Lemma add_rows_app (oid : Z) (l : list ItemDetail)
    (rows rows' : list models.OrderItem) :
  add_rows oid l rows = (Return tt, rows') →
  ∃ new, rows' = (rows ++ new)%list ∧ Forall2 (row_of oid) new l.
Proof.
  revert rows. induction l as [|x l IH]; intros rows; cbn [add_rows].
  - intros [= <-]. exists []. split; [by rewrite app_nil_r | constructor].
  - destruct (d_item_id x) as [it|] eqn:Hi; [|done].
    destruct (d_quantity x) as [q|] eqn:Hq; [|done].
    destruct (d_unit_price x) as [pr|] eqn:Hp; [|done].
    intros (new & -> & HF)%IH.
    eexists (_ :: new). split; [by rewrite <- app_assoc|].
    constructor; [by repeat split | exact HF].
Qed.

Lemma line_total_rows (oid : Z) (new : list models.OrderItem) (l : list ItemDetail) :
  Forall2 (row_of oid) new l → line_total new = details_total l.
Proof.
  unfold line_total, details_total. intros HF. generalize 0%float at 1 3.
  induction HF as [|oi x new l (_ & _ & Hq & Hp) _ IH]; intros f; [done|].
  cbn [fold_left]. rewrite Hq, Hp. apply IH.
Qed.

Lemma filter_rows_own (oid : Z) (new : list models.OrderItem) (l : list ItemDetail) :
  Forall2 (row_of oid) new l →
  filter (λ oi, models.oi_order_id oi = oid) new = new.
Proof.
  induction 1 as [|oi x new l (Ho & _) _ IH]; [done|].
  rewrite filter_cons_True by done. by rewrite IH.
Qed.

Lemma filter_rows_foreign (d : Db) :
  db_wf d →
  filter (λ oi, models.oi_order_id oi = next_order_id d) (order_items d) = [].
Proof.
  intros Hwf. unfold db_wf in Hwf.
  induction (order_items d) as [|oi rows IH]; [done|].
  rewrite filter_cons_False.
  - apply IH. intros oi' Hin. apply Hwf. by right.
  - intros Heq. destruct (Hwf oi) as [o Ho]; [by left|].
    rewrite Heq, next_order_id_fresh in Ho. discriminate.
Qed.

(** The items of the order a flow creates are exactly its new rows. *)
Lemma items_of_new_order (d : Db) (l : list ItemDetail) (os : gmap Z models.Order)
    (rows' : list models.OrderItem) :
  db_wf d →
  add_rows (next_order_id d) l (order_items d) = (Return tt, rows') →
  ∃ new,
    items_of {| orders := os; order_items := rows' |} (next_order_id d) = new
    ∧ Forall2 (row_of (next_order_id d)) new l.
Proof.
  intros Hwf (new & -> & HF)%add_rows_app.
  exists new. split; [|done].
  unfold items_of. cbn. rewrite filter_app.
  by rewrite filter_rows_foreign, (filter_rows_own _ _ _ HF).
Qed.

Lemma existsb_eqb_elem (x : Z) (l : list Z) :
  existsb (λ a, Z.eqb a x) l = true ↔ x ∈ l.
Proof.
  rewrite existsb_exists. split.
  - intros (a & Hin & Heq). apply Z.eqb_eq in Heq as ->.
    by apply list_elem_of_In.
  - intros Hin. exists x. split; [by apply list_elem_of_In | apply Z.eqb_refl].
Qed.

Lemma status_trace_cons (oid : Z) (o : models.Order) (m : gmap Z models.Order)
    (rows : list models.OrderItem) (l : list Db) :
  status_trace oid ({| orders := <[oid := o]> m; order_items := rows |} :: l)
  = models.order_status o :: status_trace oid l.
Proof. unfold status_trace. cbn. by rewrite lookup_insert_eq. Qed.

(** ** Reasoning rules for the monad *)

Lemma wp_bind {A B} (c : M A) (k : A → M B) st Q :
  wp c st (λ r st', match r with
                    | Return a => wp (k a) st' Q
                    | Raise e => Q (Raise e) st'
                    end) →
  wp (bind c k) st Q.
Proof. unfold wp, bind. by destruct (c st) as [[a|e] st']. Qed.

Lemma wp_ret {A} (a : A) st Q : Q (Return a) st → wp (ret a) st Q.
Proof. done. Qed.

Lemma wp_raise {A} e st (Q : Result A → State → Prop) :
  Q (Raise e) st → wp (raise e) st Q.
Proof. done. Qed.

Lemma wp_client_send w req st Q :
  (∀ r, respond w req = Replied r → Q (Return r) (log req st)) →
  (respond w req = TransportError → Q (Raise TransportFailure) (log req st)) →
  wp (client_send w req) st Q.
Proof.
  intros H1 H2. unfold wp, client_send.
  destruct (respond w req) as [r|]; [by apply H1 | by apply H2].
Qed.

Lemma wp_client_send_replied w req r st Q :
  respond w req = Replied r →
  Q (Return r) (log req st) → wp (client_send w req) st Q.
Proof. intros H HQ. unfold wp, client_send. by rewrite H. Qed.

Lemma wp_client_send_failed w req st Q :
  respond w req = TransportError →
  Q (Raise TransportFailure) (log req st) → wp (client_send w req) st Q.
Proof. intros H HQ. unfold wp, client_send. by rewrite H. Qed.

Lemma wp_swallow {A} (c : M A) st Q :
  wp c st (λ _ st', Q (Return tt) st') → wp (swallow c) st Q.
Proof. done. Qed.

Lemma wp_get_session st Q : Q (Return (db_sess st)) st → wp get_session st Q.
Proof. done. Qed.

Lemma wp_set_session d st Q :
  Q (Return tt)
    {| db_sess := d; database := database st; commits := commits st;
       outbound := outbound st; ORDERS_CREATED := ORDERS_CREATED st |} →
  wp (set_session d) st Q.
Proof. done. Qed.

Lemma wp_commit st Q :
  Q (Return tt)
    {| db_sess := db_sess st; database := db_sess st;
       commits := commits st ++ [db_sess st];
       outbound := outbound st; ORDERS_CREATED := ORDERS_CREATED st |} →
  wp commit st Q.
Proof. done. Qed.

Lemma wp_inc_orders_created l st Q :
  Q (Return tt)
    {| db_sess := db_sess st; database := database st;
       commits := commits st; outbound := outbound st;
       ORDERS_CREATED := ORDERS_CREATED st ++ [l] |} →
  wp (inc_orders_created l) st Q.
Proof. done. Qed.

Lemma wp_for_each_add_item oid l st Q :
  (∀ rows',
     add_rows oid l (order_items (db_sess st)) = (Return tt, rows') →
     Q (Return tt)
       {| db_sess := {| orders := orders (db_sess st); order_items := rows' |};
          database := database st; commits := commits st;
          outbound := outbound st; ORDERS_CREATED := ORDERS_CREATED st |}) →
  (∀ k rows',
     add_rows oid l (order_items (db_sess st)) = (Raise (KeyError k), rows') →
     Q (Raise (KeyError k))
       {| db_sess := {| orders := orders (db_sess st); order_items := rows' |};
          database := database st; commits := commits st;
          outbound := outbound st; ORDERS_CREATED := ORDERS_CREATED st |}) →
  wp (for_each l (new_order_item oid)) st Q.
Proof.
  intros Hret Hraise. unfold wp. rewrite for_each_add_item.
  destruct (add_rows_result oid l (order_items (db_sess st)))
    as [(rows' & H)|(k & rows' & H)]; rewrite H; cbn [fst snd]; eauto.
Qed.

Lemma wp_for_each_returned oid l st rows' Q :
  add_rows oid l (order_items (db_sess st)) = (Return tt, rows') →
  Q (Return tt)
    {| db_sess := {| orders := orders (db_sess st); order_items := rows' |};
       database := database st; commits := commits st;
       outbound := outbound st; ORDERS_CREATED := ORDERS_CREATED st |} →
  wp (for_each l (new_order_item oid)) st Q.
Proof. intros H HQ. unfold wp. by rewrite for_each_add_item, H. Qed.

Lemma wp_for_each_raised oid l st k rows' Q :
  add_rows oid l (order_items (db_sess st)) = (Raise (KeyError k), rows') →
  Q (Raise (KeyError k))
    {| db_sess := {| orders := orders (db_sess st); order_items := rows' |};
       database := database st; commits := commits st;
       outbound := outbound st; ORDERS_CREATED := ORDERS_CREATED st |} →
  wp (for_each l (new_order_item oid)) st Q.
Proof. intros H HQ. unfold wp. by rewrite for_each_add_item, H. Qed.

Lemma wp_post_orders w p cid d (Q : Result models.Order → State → Prop) :
  wp (create_order w p cid) (fresh_session d) Q →
  Q (post_orders w p cid d).1 (post_orders w p cid d).2.
Proof. done. Qed.

Ltac wp_simpl :=
  cbv beta iota;
  cbn [db_sess database commits outbound ORDERS_CREATED orders order_items log
       models.order_id models.customer_id models.restaurant_id
       models.address_id models.order_status models.order_total
       models.payment_status models.created_at
       models.with_order_status models.with_payment_status
       utcnow NOTIFICATION_SERVICE_URL str_float with_customers
       with_notifications negb andb app].

(** A case distinction, unless the context already says which case it is. *)
Ltac case_on x :=
  first [ match goal with H : x = _ |- _ => rewrite H end
        | destruct x eqn:? ].

(** One step of the run: a rule for the head of the computation, or a case
    distinction on what it branches on. *)
Ltac wp_step :=
  lazymatch goal with
  | |- wp (bind _ _) _ _ => apply wp_bind
  | |- wp (ret _) _ _ => apply wp_ret; wp_simpl
  | |- wp (raise _) _ _ => apply wp_raise; wp_simpl
  | |- wp (client_send ?w ?req) _ _ =>
      first [ match goal with
              | H : respond w req = Replied _ |- _ =>
                  apply (wp_client_send_replied _ _ _ _ _ H)
              | H : respond w req = TransportError |- _ =>
                  apply (wp_client_send_failed _ _ _ _ H)
              end
            | apply wp_client_send; [intros ? ? | intros ?] ];
      wp_simpl
  | |- wp (swallow _) _ _ => apply wp_swallow
  | |- wp (for_each ?l _) _ _ =>
      first [ match goal with
              | H : add_rows _ l _ = (Return tt, _) |- _ =>
                  apply (wp_for_each_returned _ _ _ _ _ H)
              | H : add_rows _ l _ = (Raise (KeyError _), _) |- _ =>
                  apply (wp_for_each_raised _ _ _ _ _ _ H)
              end
            | apply wp_for_each_add_item; [intros ? ? | intros ? ? ?] ];
      wp_simpl
  | |- wp (if ?b then _ else _) _ _ => case_on b; wp_simpl
  | |- wp (match ?x with _ => _ end) _ _ => case_on x; wp_simpl
  | |- wp (validate_customer_and_address _ _ _ _) _ _ =>
      unfold validate_customer_and_address
  | |- wp (validate_restaurant_and_items _ _ _ _) _ _ =>
      unfold validate_restaurant_and_items
  | |- wp (call_payment_service _ _ _ _ _) _ _ => unfold call_payment_service
  | |- wp (call_delivery_assign _ _ _) _ _ => unfold call_delivery_assign
  | |- wp (notify _ _ _ _ _ _) _ _ => unfold notify; wp_simpl
  | |- wp (json _) _ _ => unfold json
  | |- wp (getitem _ _) _ _ => unfold getitem
  | |- wp (py_float _) _ _ => unfold py_float
  | |- wp (add_order_flush _) _ _ => unfold add_order_flush
  | |- wp (assign _) _ _ => unfold assign
  | |- wp (refresh _) _ _ => unfold refresh
  | |- wp (create_order _ _ _) _ _ => unfold create_order; wp_simpl
  | |- wp get_session _ _ => apply wp_get_session; wp_simpl
  | |- wp (set_session _) _ _ => apply wp_set_session; wp_simpl
  | |- wp commit _ _ => apply wp_commit; wp_simpl
  | |- wp (inc_orders_created _) _ _ => apply wp_inc_orders_created; wp_simpl
  end.

Ltac run_flow := unfold fresh_session; repeat wp_step.

(** ** The order state machine *)

(** C10.  Over the snapshots a create-order flow commits, the order_status
    of its order never regresses: the trace starts in PENDING_PAYMENT, every
    later step is one of PENDING_PAYMENT to PAYMENT_FAILED, PENDING_PAYMENT
    to CONFIRMED, CONFIRMED to OUT_FOR_DELIVERY, and no committed update
    follows a snapshot in PAYMENT_FAILED or OUT_FOR_DELIVERY. *)
Theorem order_status_never_regresses (w : World)
    (p : schemas.CreateOrderRequest) (cid : string) (d : Db) :
  let tr := status_trace (next_order_id d) (commits (post_orders w p cid d).2) in
  tr = []
  ∨ (head tr = Some "PENDING_PAYMENT"
     ∧ chain tr
     ∧ ∀ s, s ∈ removelast tr → s ≠ "PAYMENT_FAILED" ∧ s ≠ "OUT_FOR_DELIVERY").
Proof.
  cbv zeta.
  apply (wp_post_orders w p cid d
           (λ _ st,
              let tr := status_trace (next_order_id d) (commits st) in
              tr = []
              ∨ (head tr = Some "PENDING_PAYMENT"
                 ∧ chain tr
                 ∧ ∀ s, s ∈ removelast tr →
                        s ≠ "PAYMENT_FAILED" ∧ s ≠ "OUT_FOR_DELIVERY"))).
  run_flow.
  all: cbv zeta; rewrite ?status_trace_cons.
  all: first [ by left | right ].
  all: cbn [models.order_status models.with_order_status
            models.with_payment_status status_trace omap list_omap removelast].
  all: split; [done|]; split; [repeat constructor|].
  all: intros s Hs; repeat (apply elem_of_cons in Hs as [->|Hs]);
    try (by apply elem_of_nil in Hs); by split.
Qed.

(** ** The payment request *)

(** C9.  Whatever the order, the payment method, the e-mail address, the
    correlation id and the answer of the payment service, the one request
    [call_payment_service] sends is a charge for the order's id whose
    Idempotency-Key header is "order-{order_id}-payment": the key depends
    on the order id alone. *)
Theorem idempotency_key_from_order_id (w : World) (order : models.Order)
    (method : string) (email : option string) (cid : string) (st : State) :
  ∃ payload headers,
    outbound (call_payment_service w order method email cid st).2
      = (outbound st ++ [PostCharge payload headers])%list
    ∧ c_order_id payload = models.order_id order
    ∧ headers !! "Idempotency-Key"
      = Some ("order-" +:+ pretty (models.order_id order) +:+ "-payment").
Proof.
  unfold call_payment_service, charge_request, bind, client_send, json, ret, raise.
  destruct (respond w _) as [r|]; cbn [snd outbound].
  - destruct (Z.eqb (status_code r) 201); [destruct (body r) as [data|]|];
      try destruct (bool_decide _); cbn [snd outbound];
      (eexists _, _; split; [reflexivity|];
       split; [reflexivity | apply lookup_insert_eq]).
  - eexists _, _. split; [reflexivity|].
    split; [reflexivity | apply lookup_insert_eq].
Qed.

(** Two attempts for the same order id carry the same key. *)
Lemma idempotency_key_same_order (o1 o2 : models.Order) (m1 m2 : string)
    (e1 e2 : option string) (c1 c2 : string) :
  models.order_id o1 = models.order_id o2 →
  request_headers (charge_request o1 m1 e1 c1) !! "Idempotency-Key"
  = request_headers (charge_request o2 m2 e2 c2) !! "Idempotency-Key".
Proof.
  intros Heq. unfold charge_request. cbn [request_headers].
  by rewrite !lookup_insert_eq, Heq.
Qed.

(** Normal forms of the facts the case distinctions leave behind. *)
Ltac tidy :=
  repeat match goal with
         | H : negb _ = true |- _ => apply negb_true_iff in H
         | H : negb _ = false |- _ => apply negb_false_iff in H
         | H : Z.eqb _ _ = true |- _ => apply Z.eqb_eq in H
         | H : Z.eqb _ _ = false |- _ => apply Z.eqb_neq in H
         | H : bool_decide _ = true |- _ => apply bool_decide_eq_true in H
         | H : bool_decide _ = false |- _ => apply bool_decide_eq_false in H
         end.

(** ** Failures before the order is persisted *)

(** C7, as amended.  When the request carries no usable e-mail address and
    the customer lookup does not come back with status 200, no Order row and
    no OrderItem row is created, in the session or in the store, and nothing
    is committed; when the lookup was answered at all, the operation fails
    with INVALID_CUSTOMER (400). *)
Theorem customer_lookup_failure_no_rows (w : World)
    (p : schemas.CreateOrderRequest) (cid : string) (d : Db) :
  truthy (schemas.customer_email p) = false →
  (∀ r, respond w (customer_request (schemas.customer_id p) cid) = Replied r →
        status_code r ≠ 200) →
  (∃ e, (post_orders w p cid d).1 = Raise e)
  ∧ database (post_orders w p cid d).2 = d
  ∧ db_sess (post_orders w p cid d).2 = d
  ∧ commits (post_orders w p cid d).2 = []
  ∧ ∀ r, respond w (customer_request (schemas.customer_id p) cid) = Replied r →
         (post_orders w p cid d).1
         = Raise (HTTPException 400 (detail "INVALID_CUSTOMER" cid))
         ∧ response_status (post_orders w p cid d).1 = 400.
Proof.
  intros Hemail Hlookup.
  apply (wp_post_orders w p cid d
           (λ res st,
              (∃ e, res = Raise e) ∧ database st = d ∧ db_sess st = d
              ∧ commits st = []
              ∧ ∀ r, respond w (customer_request (schemas.customer_id p) cid)
                     = Replied r →
                     res = Raise (HTTPException 400 (detail "INVALID_CUSTOMER" cid))
                     ∧ response_status res = 400)).
  run_flow; tidy.
  all: try congruence.
  all: try (exfalso; eapply Hlookup; eauto; fail).
  all: repeat split; eauto; congruence.
Qed.

Lemma customer_lookup_failure_no_rows_witness :
  let w := scripted (reply 404 None) TransportError TransportError
             TransportError TransportError in
  let out := post_orders w (order_request (Some 100) two_lines None) "cid" empty_db in
  (∃ e, out.1 = Raise e)
  ∧ database out.2 = empty_db
  ∧ db_sess out.2 = empty_db
  ∧ commits out.2 = []
  ∧ ∀ r, respond w (customer_request 1 "cid") = Replied r →
         out.1 = Raise (HTTPException 400 (detail "INVALID_CUSTOMER" "cid"))
         ∧ response_status out.1 = 400.
Proof.
  apply (customer_lookup_failure_no_rows
           (scripted (reply 404 None) TransportError TransportError
              TransportError TransportError)
           (order_request (Some 100) two_lines None) "cid" empty_db).
  - reflexivity.
  - intros r Hr. injection Hr as <-. discriminate.
Defined.

(** C7 as stated fails when the lookup fails in transport: the exception of
    the HTTP client leaves the handler as it is, and the answer is a 500,
    not INVALID_CUSTOMER. *)
Lemma customer_lookup_timeout_is_not_invalid_customer :
  let w := scripted TransportError (reply 200 (Some (priced 13)))
             (reply 201 (Some (payment "SUCCESS"))) (reply 201 None)
             (reply 200 None) in
  let out := post_orders w (order_request (Some 100) two_lines None) "cid" empty_db in
  respond w (customer_request 1 "cid") = TransportError
  ∧ out.1 = Raise TransportFailure
  ∧ response_status out.1 = 500
  ∧ out.1 ≠ Raise (HTTPException 400 (detail "INVALID_CUSTOMER" "cid")).
Proof. repeat split. discriminate. Qed.

(** C8, as amended.  With an empty items list the validate-items endpoint
    is never called, no row is created and nothing is committed, and the
    operation fails; it fails with EMPTY_ORDER (400) whenever step 1 lets
    the request through. *)
Theorem empty_order_rejected (w : World) (p : schemas.CreateOrderRequest)
    (cid : string) (d : Db) :
  schemas.items p = [] →
  (∀ req, req ∈ outbound (post_orders w p cid d).2 → is_validate_items req = false)
  ∧ (∃ e, (post_orders w p cid d).1 = Raise e)
  ∧ database (post_orders w p cid d).2 = d
  ∧ db_sess (post_orders w p cid d).2 = d
  ∧ commits (post_orders w p cid d).2 = []
  ∧ (customer_validated w p cid →
     (post_orders w p cid d).1 = Raise (HTTPException 400 (detail "EMPTY_ORDER" cid))
     ∧ response_status (post_orders w p cid d).1 = 400).
Proof.
  intros Hitems.
  apply (wp_post_orders w p cid d
           (λ res st,
              (∀ req, req ∈ outbound st → is_validate_items req = false)
              ∧ (∃ e, res = Raise e) ∧ database st = d ∧ db_sess st = d
              ∧ commits st = []
              ∧ (customer_validated w p cid →
                 res = Raise (HTTPException 400 (detail "EMPTY_ORDER" cid))
                 ∧ response_status res = 400))).
  run_flow; tidy.
  all: try congruence.
  all: split; [intros req Hreq;
               repeat (apply elem_of_cons in Hreq as [->|Hreq]); [done..|];
               by apply elem_of_nil in Hreq|].
  all: split; [eauto|]; do 3 (split; [done|]).
  all: intros [Ht|(r' & data & Hr & Hs & Hb & Ha)]; simplify_eq;
    try done; try congruence.
  all: match goal with
       | H : schemas.address_id _ = Some _ |- _ => specialize (Ha _ H)
       end.
  all: apply existsb_eqb_elem in Ha; congruence.
Qed.

Lemma empty_order_rejected_witness :
  (post_orders all_well (order_request None [] (Some "guest@example.com"))
     "cid" empty_db).1
  = Raise (HTTPException 400 (detail "EMPTY_ORDER" "cid")).
Proof.
  destruct (empty_order_rejected all_well
              (order_request None [] (Some "guest@example.com")) "cid" empty_db
              eq_refl) as (_ & _ & _ & _ & _ & H).
  apply H. left. reflexivity.
Defined.

(** C8 as stated fails when step 1 stops the request first: with an empty
    items list and an unknown customer the operation fails with
    INVALID_CUSTOMER, not with EMPTY_ORDER. *)
Lemma empty_order_of_unknown_customer :
  let w := scripted (reply 404 None) (reply 200 (Some (priced 13)))
             (reply 201 (Some (payment "SUCCESS"))) (reply 201 None)
             (reply 200 None) in
  let p := order_request None [] None in
  schemas.items p = []
  ∧ (post_orders w p "cid" empty_db).1
    = Raise (HTTPException 400 (detail "INVALID_CUSTOMER" "cid"))
  ∧ (post_orders w p "cid" empty_db).1
    ≠ Raise (HTTPException 400 (detail "EMPTY_ORDER" "cid")).
Proof. repeat split. discriminate. Qed.

(** A leaf of the run in which step 1 failed contradicts
    [customer_validated]. *)
Ltac customer_absurd Hc :=
  exfalso;
  let Ha := fresh "Ha" in
  destruct Hc as [?|(? & ? & ? & ? & ? & Ha)]; simplify_eq;
  try done; try congruence;
  match goal with
  | H : schemas.address_id _ = Some _ |- _ => specialize (Ha _ H)
  end;
  apply existsb_eqb_elem in Ha; congruence.

(** C4, as amended.  When the request carries an address_id and no usable
    e-mail address, and the customer service answers 200 with an object
    whose addresses do not hold that address_id, the operation fails with
    INVALID_ADDRESS_FOR_CUSTOMER (400) and no row is created. *)
Theorem foreign_address_rejected (w : World) (p : schemas.CreateOrderRequest)
    (cid : string) (d : Db) (a : Z) (r : Response) (data : JsonObject) :
  truthy (schemas.customer_email p) = false →
  schemas.address_id p = Some a →
  respond w (customer_request (schemas.customer_id p) cid) = Replied r →
  status_code r = 200 →
  body r = Some data →
  a ∉ default [] (j_addresses data) →
  (post_orders w p cid d).1
  = Raise (HTTPException 400 (detail "INVALID_ADDRESS_FOR_CUSTOMER" cid))
  ∧ response_status (post_orders w p cid d).1 = 400
  ∧ database (post_orders w p cid d).2 = d
  ∧ db_sess (post_orders w p cid d).2 = d
  ∧ commits (post_orders w p cid d).2 = [].
Proof.
  intros Hemail Haddr Hr Hs Hb Hnot.
  apply (wp_post_orders w p cid d
           (λ res st,
              res = Raise (HTTPException 400
                             (detail "INVALID_ADDRESS_FOR_CUSTOMER" cid))
              ∧ response_status res = 400
              ∧ database st = d ∧ db_sess st = d ∧ commits st = [])).
  run_flow; tidy; simplify_eq; try done; try congruence.
  all: exfalso; apply Hnot, existsb_eqb_elem; congruence.
Qed.

Lemma foreign_address_rejected_witness :
  (post_orders all_well (order_request (Some 999) two_lines None) "cid" empty_db).1
  = Raise (HTTPException 400 (detail "INVALID_ADDRESS_FOR_CUSTOMER" "cid")).
Proof.
  apply (foreign_address_rejected all_well
           (order_request (Some 999) two_lines None) "cid" empty_db 999
           {| status_code := 200; body := Some customer_1 |} customer_1);
    try reflexivity.
  intros H. apply list_elem_of_singleton in H. discriminate.
Defined.

(** C4 as stated fails when the request carries an e-mail address: the
    customer service is not asked, and an order for an address the customer
    does not own is created and charged. *)
Lemma foreign_address_accepted_with_email :
  let p := order_request (Some 999) two_lines (Some "guest@example.com") in
  let out := post_orders all_well p "cid" empty_db in
  schemas.address_id p = Some 999
  ∧ respond all_well (customer_request 1 "cid") = reply 200 (Some customer_1)
  ∧ (999 ∉ default [] (j_addresses customer_1))
  ∧ response_status out.1 = 201
  ∧ (models.address_id <$> (orders (database out.2) !! 1)) = Some (Some 999)
  ∧ out.1 ≠ Raise (HTTPException 400 (detail "INVALID_ADDRESS_FOR_CUSTOMER" "cid")).
Proof.
  vm_compute. repeat split; try discriminate.
  intros H. apply list_elem_of_singleton in H. discriminate.
Qed.

(** C6, as amended.  When step 1 lets the request through, the items list is
    not empty and the validate-items call does not come back with status
    200, no row is created and nothing is committed; when the call was
    answered at all, the operation fails with MENU_VALIDATION_FAILED
    (502). *)
Theorem menu_fault_no_order (w : World) (p : schemas.CreateOrderRequest)
    (cid : string) (d : Db) :
  customer_validated w p cid →
  schemas.items p ≠ [] →
  (∀ r, respond w (validate_items_request (schemas.restaurant_id p)
                     (schemas.items p) cid) = Replied r →
        status_code r ≠ 200) →
  (∃ e, (post_orders w p cid d).1 = Raise e)
  ∧ database (post_orders w p cid d).2 = d
  ∧ db_sess (post_orders w p cid d).2 = d
  ∧ commits (post_orders w p cid d).2 = []
  ∧ ∀ r, respond w (validate_items_request (schemas.restaurant_id p)
                      (schemas.items p) cid) = Replied r →
         (post_orders w p cid d).1
         = Raise (HTTPException 502 (detail "MENU_VALIDATION_FAILED" cid))
         ∧ response_status (post_orders w p cid d).1 = 502.
Proof.
  intros Hc Hitems Hfault.
  apply (wp_post_orders w p cid d
           (λ res st,
              (∃ e, res = Raise e) ∧ database st = d ∧ db_sess st = d
              ∧ commits st = []
              ∧ ∀ r, respond w (validate_items_request (schemas.restaurant_id p)
                                  (schemas.items p) cid) = Replied r →
                     res = Raise (HTTPException 502
                                    (detail "MENU_VALIDATION_FAILED" cid))
                     ∧ response_status res = 502)).
  run_flow; tidy.
  all: try congruence.
  all: try (customer_absurd Hc).
  all: try (exfalso; eapply Hfault; eauto; fail).
  all: repeat split; eauto; congruence.
Qed.

Lemma menu_fault_no_order_witness :
  let w := scripted (reply 200 (Some customer_1)) (reply 503 None)
             TransportError TransportError TransportError in
  let out := post_orders w (order_request (Some 100) two_lines None) "cid" empty_db in
  out.1 = Raise (HTTPException 502 (detail "MENU_VALIDATION_FAILED" "cid"))
  ∧ response_status out.1 = 502.
Proof.
  cbv zeta.
  edestruct (menu_fault_no_order
               (scripted (reply 200 (Some customer_1)) (reply 503 None)
                  TransportError TransportError TransportError)
               (order_request (Some 100) two_lines None) "cid" empty_db)
    as (_ & _ & _ & _ & H).
  - right. exists {| status_code := 200; body := Some customer_1 |}, customer_1.
    repeat split. intros a Ha. injection Ha as <-.
    apply list_elem_of_singleton. reflexivity.
  - discriminate.
  - intros r Hr. injection Hr as <-. discriminate.
  - apply (H {| status_code := 503; body := None |}). reflexivity.
Defined.

(** C6 as stated fails when the restaurant service is unreachable: the
    exception of the HTTP client leaves the handler as it is, and the
    answer is a 500, not MENU_VALIDATION_FAILED (502). *)
Lemma unreachable_restaurant_is_not_menu_validation_failed :
  let w := scripted (reply 200 (Some customer_1)) TransportError
             (reply 201 (Some (payment "SUCCESS"))) (reply 201 None)
             (reply 200 None) in
  let p := order_request (Some 100) two_lines None in
  let out := post_orders w p "cid" empty_db in
  schemas.items p ≠ []
  ∧ respond w (validate_items_request 5 two_lines "cid") = TransportError
  ∧ out.1 = Raise TransportFailure
  ∧ response_status out.1 = 500
  ∧ out.1 ≠ Raise (HTTPException 502 (detail "MENU_VALIDATION_FAILED" "cid")).
Proof. vm_compute. repeat split; discriminate. Qed.

(** ** Payment *)

(** A request of the log is a charge only if it is the flow's own. *)
Ltac which_request H :=
  repeat (apply elem_of_cons in H as [->|H]);
  try (by apply elem_of_nil in H).

(** C1, as amended.  Whenever a create-order flow sends its charge and the
    payment service answers with anything but a charge (a status other than
    201, or a 201 object whose status is not SUCCESS), the order the flow
    created is stored with order_status PAYMENT_FAILED and payment_status
    FAILED, that update is the last commit, and the operation fails with
    PAYMENT_FAILED (402) carrying the id of that order. *)
Theorem declined_payment_marks_order_failed (w : World)
    (p : schemas.CreateOrderRequest) (cid : string) (d : Db)
    (req : Request) (r : Response) :
  req ∈ outbound (post_orders w p cid d).2 →
  is_charge req = true →
  respond w req = Replied r →
  declined r →
  (post_orders w p cid d).1
  = Raise (HTTPException 402
             {| code := "PAYMENT_FAILED"; reason := None;
                detail_order_id := Some (next_order_id d);
                correlationId := cid |})
  ∧ response_status (post_orders w p cid d).1 = 402
  ∧ last (commits (post_orders w p cid d).2)
    = Some (database (post_orders w p cid d).2)
  ∧ ∃ o,
      orders (database (post_orders w p cid d).2) !! next_order_id d = Some o
      ∧ models.order_id o = next_order_id d
      ∧ models.order_status o = "PAYMENT_FAILED"
      ∧ models.payment_status o = "FAILED".
Proof.
  apply (wp_post_orders w p cid d
           (λ res st,
              req ∈ outbound st → is_charge req = true →
              respond w req = Replied r → declined r →
              res = Raise (HTTPException 402
                             {| code := "PAYMENT_FAILED"; reason := None;
                                detail_order_id := Some (next_order_id d);
                                correlationId := cid |})
              ∧ response_status res = 402
              ∧ last (commits st) = Some (database st)
              ∧ ∃ o,
                  orders (database st) !! next_order_id d = Some o
                  ∧ models.order_id o = next_order_id d
                  ∧ models.order_status o = "PAYMENT_FAILED"
                  ∧ models.payment_status o = "FAILED")).
  run_flow.
  all: intros Hin Hcharge Hr Hdecl; which_request Hin; try discriminate Hcharge.
  all: tidy.
  all: try (destruct Hdecl as [?|(? & ? & ?)]; congruence).
  all: do 3 (split; [reflexivity|]).
  all: eexists; split; [apply lookup_insert_eq|]; repeat split.
Qed.

Lemma declined_payment_marks_order_failed_witness :
  let w := scripted (reply 200 (Some customer_1)) (reply 200 (Some (priced 13)))
             (reply 201 (Some (payment "DECLINED"))) (reply 201 None)
             (reply 200 None) in
  let out := post_orders w (order_request (Some 100) two_lines None) "cid" empty_db in
  out.1 = Raise (HTTPException 402
                   {| code := "PAYMENT_FAILED"; reason := None;
                      detail_order_id := Some 1; correlationId := "cid" |})
  ∧ response_status out.1 = 402
  ∧ last (commits out.2) = Some (database out.2)
  ∧ ∃ o, orders (database out.2) !! 1 = Some o
         ∧ models.order_id o = 1
         ∧ models.order_status o = "PAYMENT_FAILED"
         ∧ models.payment_status o = "FAILED".
Proof.
  apply (declined_payment_marks_order_failed
           (scripted (reply 200 (Some customer_1)) (reply 200 (Some (priced 13)))
              (reply 201 (Some (payment "DECLINED"))) (reply 201 None)
              (reply 200 None))
           (order_request (Some 100) two_lines None) "cid" empty_db
           (charge_request
              {| models.order_id := 1; models.customer_id := 1;
                 models.restaurant_id := 5; models.address_id := Some 100;
                 models.order_status := "PENDING_PAYMENT";
                 models.order_total := 13; models.payment_status := "PENDING";
                 models.created_at := 0 |}
              "CARD" (Some "one@example.com") "cid")
           {| status_code := 201; body := Some (payment "DECLINED") |}).
  - vm_compute. repeat constructor.
  - reflexivity.
  - reflexivity.
  - right. exists (payment "DECLINED"). split; [reflexivity | discriminate].
Defined.

(** C1 as stated fails on a transport failure of the charge: the exception
    of the HTTP client leaves the handler as it is, the answer is a 500 and
    the stored order stays in PENDING_PAYMENT / PENDING. *)
Lemma payment_timeout_leaves_order_pending :
  let w := scripted (reply 200 (Some customer_1)) (reply 200 (Some (priced 13)))
             TransportError (reply 201 None) (reply 200 None) in
  let out := post_orders w (order_request (Some 100) two_lines None) "cid" empty_db in
  (∃ req, req ∈ outbound out.2 ∧ is_charge req = true
          ∧ respond w req = TransportError)
  ∧ out.1 = Raise TransportFailure
  ∧ response_status out.1 = 500
  ∧ (models.order_status <$> (orders (database out.2) !! 1)) = Some "PENDING_PAYMENT"
  ∧ (models.payment_status <$> (orders (database out.2) !! 1)) = Some "PENDING".
Proof.
  vm_compute. split; [|done].
  eexists. split; [|split].
  - do 2 apply list_elem_of_further. apply list_elem_of_here.
  - reflexivity.
  - reflexivity.
Qed.

(** C3, as amended.  Whenever a create-order flow sends its charge and the
    payment service accepts it, the stored order has payment_status SUCCESS
    and order_status OUT_FOR_DELIVERY if the delivery service answered the
    assignment with 201, CONFIRMED otherwise; and whenever the delivery
    service answered at all, the operation returns that Order with 201. *)
Theorem paid_order_is_placed (w : World) (p : schemas.CreateOrderRequest)
    (cid : string) (d : Db) (req : Request) (r : Response) :
  req ∈ outbound (post_orders w p cid d).2 →
  is_charge req = true →
  respond w req = Replied r →
  charged r →
  ∃ o,
    orders (database (post_orders w p cid d).2) !! next_order_id d = Some o
    ∧ models.order_id o = next_order_id d
    ∧ models.payment_status o = "SUCCESS"
    ∧ models.order_status o
      = (if delivery_assigned w (next_order_id d) cid
         then "OUT_FOR_DELIVERY" else "CONFIRMED")
    ∧ ((∃ a, respond w (assign_request (next_order_id d) cid) = Replied a) →
       (post_orders w p cid d).1 = Return o
       ∧ response_status (post_orders w p cid d).1 = 201).
Proof.
  apply (wp_post_orders w p cid d
           (λ res st,
              req ∈ outbound st → is_charge req = true →
              respond w req = Replied r → charged r →
              ∃ o,
                orders (database st) !! next_order_id d = Some o
                ∧ models.order_id o = next_order_id d
                ∧ models.payment_status o = "SUCCESS"
                ∧ models.order_status o
                  = (if delivery_assigned w (next_order_id d) cid
                     then "OUT_FOR_DELIVERY" else "CONFIRMED")
                ∧ ((∃ a, respond w (assign_request (next_order_id d) cid)
                         = Replied a) →
                   res = Return o ∧ response_status res = 201))).
  run_flow.
  all: intros Hin Hcharge Hr (Hs & data & Hb & Hst);
    which_request Hin; try discriminate Hcharge.
  all: try (exfalso; tidy; congruence).
  all: unfold delivery_assigned;
    repeat match goal with
           | H : respond _ (assign_request _ _) = _ |- _ => rewrite H
           | H : Z.eqb _ _ = _ |- _ => rewrite H
           end.
  all: eexists; split; [apply lookup_insert_eq|]; do 3 (split; [reflexivity|]).
  all: intros [a Ha]; by try congruence.
Qed.

Lemma paid_order_is_placed_witness :
  let out := post_orders all_well (order_request (Some 100) two_lines None)
               "cid" empty_db in
  ∃ o,
    orders (database out.2) !! next_order_id empty_db = Some o
    ∧ models.order_id o = next_order_id empty_db
    ∧ models.payment_status o = "SUCCESS"
    ∧ models.order_status o
      = (if delivery_assigned all_well (next_order_id empty_db) "cid"
         then "OUT_FOR_DELIVERY" else "CONFIRMED")
    ∧ ((∃ a, respond all_well (assign_request (next_order_id empty_db) "cid")
             = Replied a) →
       out.1 = Return o ∧ response_status out.1 = 201).
Proof.
  apply (paid_order_is_placed all_well
           (order_request (Some 100) two_lines None) "cid" empty_db
           (charge_request
              {| models.order_id := 1; models.customer_id := 1;
                 models.restaurant_id := 5; models.address_id := Some 100;
                 models.order_status := "PENDING_PAYMENT";
                 models.order_total := 13; models.payment_status := "PENDING";
                 models.created_at := 0 |}
              "CARD" (Some "one@example.com") "cid")
           {| status_code := 201; body := Some (payment "SUCCESS") |}).
  - vm_compute. repeat constructor.
  - reflexivity.
  - reflexivity.
  - split; [reflexivity|]. exists (payment "SUCCESS"). split; reflexivity.
Defined.

(** C3 as stated fails on a transport failure of the assignment: the charge
    has succeeded and the order is stored as CONFIRMED, but the exception
    of the HTTP client leaves the handler as it is and the answer is a 500,
    not a 201 with the Order. *)
Lemma delivery_timeout_fails_the_request :
  let w := scripted (reply 200 (Some customer_1)) (reply 200 (Some (priced 13)))
             (reply 201 (Some (payment "SUCCESS"))) TransportError
             (reply 200 None) in
  let out := post_orders w (order_request (Some 100) two_lines None) "cid" empty_db in
  (∃ req r, req ∈ outbound out.2 ∧ is_charge req = true
            ∧ respond w req = Replied r ∧ charged r)
  ∧ respond w (assign_request 1 "cid") = TransportError
  ∧ (models.order_status <$> (orders (database out.2) !! 1)) = Some "CONFIRMED"
  ∧ out.1 = Raise TransportFailure
  ∧ response_status out.1 = 500
  ∧ ∀ o, out.1 ≠ Return o.
Proof.
  cbv zeta. split.
  - eexists _, _. split; [|split; [|split]].
    + vm_compute. do 2 apply list_elem_of_further. apply list_elem_of_here.
    + reflexivity.
    + reflexivity.
    + split; [reflexivity|]. eexists. split; reflexivity.
  - vm_compute. repeat split. discriminate.
Qed.

(** ** The order total *)

(** C2, as amended.  In every snapshot a create-order flow commits, the
    order it created carries as order_total the float of the total of the
    restaurant service's answer, and its OrderItems are the priced items of
    that answer, line by line; so order_total is the sum of price times
    quantity over the OrderItems exactly when the float of the restaurant's
    total is the sum over its own priced items. *)
Theorem order_total_is_menu_total (w : World) (p : schemas.CreateOrderRequest)
    (cid : string) (d : Db) (s : Db) :
  db_wf d →
  s ∈ commits (post_orders w p cid d).2 →
  ∃ r v t ds o,
    respond w (validate_items_request (schemas.restaurant_id p)
                 (schemas.items p) cid) = Replied r
    ∧ body r = Some v ∧ j_total v = Some t ∧ j_items v = Some ds
    ∧ orders s !! next_order_id d = Some o
    ∧ float_of_number t = Some (models.order_total o)
    ∧ Forall2 (row_of (next_order_id d)) (items_of s (next_order_id d)) ds
    ∧ line_total (items_of s (next_order_id d)) = details_total ds
    ∧ (models.order_total o = line_total (items_of s (next_order_id d))
       ↔ float_of_number t = Some (details_total ds)).
Proof.
  intros Hwf.
  apply (wp_post_orders w p cid d
           (λ _ st,
              s ∈ commits st →
              ∃ r v t ds o,
                respond w (validate_items_request (schemas.restaurant_id p)
                             (schemas.items p) cid) = Replied r
                ∧ body r = Some v ∧ j_total v = Some t ∧ j_items v = Some ds
                ∧ orders s !! next_order_id d = Some o
                ∧ float_of_number t = Some (models.order_total o)
                ∧ Forall2 (row_of (next_order_id d))
                    (items_of s (next_order_id d)) ds
                ∧ line_total (items_of s (next_order_id d)) = details_total ds
                ∧ (models.order_total o
                   = line_total (items_of s (next_order_id d))
                   ↔ float_of_number t = Some (details_total ds)))).
  run_flow.
  all: intros Hin; which_request Hin.
  all: match goal with
       | H : add_rows _ ?ds _ = (Return tt, ?rows)
         |- context [items_of {| orders := ?os; order_items := ?rows |}] =>
           destruct (items_of_new_order d ds os rows Hwf H) as (new & Hnew & HF)
       end.
  all: do 5 eexists.
  all: do 4 (split; [eassumption|]).
  all: split; [apply lookup_insert_eq|].
  all: cbn [models.order_total models.with_order_status
            models.with_payment_status].
  all: split; [eassumption|].
  all: rewrite Hnew; split; [exact HF|].
  all: rewrite (line_total_rows _ _ _ HF); split; [reflexivity|].
  all: match goal with H : float_of_number _ = Some _ |- _ => rewrite H end.
  all: split; [by intros -> | by intros [= ->]].
Qed.

Lemma order_total_is_menu_total_witness :
  let p := order_request (Some 100) two_lines None in
  let s := database (post_orders all_well p "cid" empty_db).2 in
  ∃ r v t ds o,
    respond all_well (validate_items_request (schemas.restaurant_id p)
                        (schemas.items p) "cid") = Replied r
    ∧ body r = Some v ∧ j_total v = Some t ∧ j_items v = Some ds
    ∧ orders s !! next_order_id empty_db = Some o
    ∧ float_of_number t = Some (models.order_total o)
    ∧ Forall2 (row_of (next_order_id empty_db))
        (items_of s (next_order_id empty_db)) ds
    ∧ line_total (items_of s (next_order_id empty_db)) = details_total ds
    ∧ (models.order_total o
       = line_total (items_of s (next_order_id empty_db))
       ↔ float_of_number t = Some (details_total ds)).
Proof.
  apply (order_total_is_menu_total all_well
           (order_request (Some 100) two_lines None) "cid" empty_db
           (database (post_orders all_well
                        (order_request (Some 100) two_lines None)
                        "cid" empty_db).2)).
  - intros oi Hoi. by apply elem_of_nil in Hoi.
  - vm_compute. repeat constructor.
Defined.

(** C2 as stated fails when the restaurant service's total is not the sum
    of its priced items: the flow stores the total it was given, here 100
    for lines that add up to 13. *)
Lemma order_total_differs_from_line_total :
  let w := scripted (reply 200 (Some customer_1)) (reply 200 (Some (priced 100)))
             (reply 201 (Some (payment "SUCCESS"))) (reply 201 None)
             (reply 200 None) in
  let out := post_orders w (order_request (Some 100) two_lines None) "cid" empty_db in
  response_status out.1 = 201
  ∧ ∃ o, orders (database out.2) !! 1 = Some o
         ∧ models.order_total o = 100%float
         ∧ line_total (items_of (database out.2) 1) = 13%float
         ∧ models.order_total o ≠ line_total (items_of (database out.2) 1).
Proof.
  vm_compute. split; [reflexivity|]. eexists. split; [reflexivity|].
  vm_compute. repeat split.
  intros H. apply (f_equal (λ x, PrimFloat.eqb x 100%float)) in H.
  vm_compute in H. discriminate.
Qed.

(** The stored order_total is the float of the total, not the total: an
    integer total of 2^53 + 1 is stored as 9007199254740992.0, and an
    integer too large for a float ends the request in an OverflowError
    before anything is persisted. *)
Example total_is_rounded_to_a_float :
  let w := scripted (reply 200 (Some customer_1))
             (reply 200 (Some (priced (2 ^ 53 + 1))))
             (reply 201 (Some (payment "SUCCESS"))) (reply 201 None)
             (reply 200 None) in
  let w' := scripted (reply 200 (Some customer_1))
              (reply 200 (Some (priced (2 ^ 1024))))
              (reply 201 (Some (payment "SUCCESS"))) (reply 201 None)
              (reply 200 None) in
  let p := order_request (Some 100) two_lines None in
  (models.order_total <$> (orders (database (post_orders w p "cid" empty_db).2) !! 1))
  = Some 9007199254740992%float
  ∧ (post_orders w' p "cid" empty_db).1 = Raise OverflowError
  ∧ database (post_orders w' p "cid" empty_db).2 = empty_db.
Proof. vm_compute. repeat split. Qed.

(** ** Requests that carry an e-mail address *)

Lemma wp_run_eq {A} (c : M A) (st : State) (x : Result A * State) :
  wp c st (λ res st', (res, st') = x) → c st = x.
Proof. unfold wp. by destruct (c st). Qed.

(** What is known of [w] outside the customer service holds of
    [with_customers f w]. *)
Ltac transfer_answers f w :=
  repeat match goal with
         | H : respond w ?req = ?x |- _ =>
             lazymatch goal with
             | _ : respond (with_customers f w) req = x |- _ => fail
             | _ => assert (respond (with_customers f w) req = x) by exact H
             end
         end.

(** C5.  When the request carries a non-empty customer_email, the flow
    sends no customer lookup, it cannot fail with INVALID_CUSTOMER or
    INVALID_ADDRESS_FOR_CUSTOMER, and its result and final state are the
    same whatever the customer service would have answered: the address_id
    is taken as supplied. *)
Theorem supplied_email_skips_customer_lookup (w : World)
    (p : schemas.CreateOrderRequest) (cid : string) (d : Db) :
  truthy (schemas.customer_email p) = true →
  (∀ req, req ∈ outbound (post_orders w p cid d).2 → is_customer_lookup req = false)
  ∧ (∀ status dt, (post_orders w p cid d).1 = Raise (HTTPException status dt) →
                  code dt ≠ "INVALID_CUSTOMER"
                  ∧ code dt ≠ "INVALID_ADDRESS_FOR_CUSTOMER")
  ∧ (∀ s o, s ∈ commits (post_orders w p cid d).2 →
            orders s !! next_order_id d = Some o →
            models.address_id o = schemas.address_id p)
  ∧ ∀ f, post_orders (with_customers f w) p cid d = post_orders w p cid d.
Proof.
  intros Hemail.
  assert (∀ x : Result models.Order * State,
            ((∀ req, req ∈ outbound x.2 → is_customer_lookup req = false)
             ∧ (∀ status dt, x.1 = Raise (HTTPException status dt) →
                             code dt ≠ "INVALID_CUSTOMER"
                             ∧ code dt ≠ "INVALID_ADDRESS_FOR_CUSTOMER")
             ∧ (∀ s o, s ∈ commits x.2 → orders s !! next_order_id d = Some o →
                       models.address_id o = schemas.address_id p)
             ∧ ∀ f, post_orders (with_customers f w) p cid d = (x.1, x.2)) →
            (∀ req, req ∈ outbound x.2 → is_customer_lookup req = false)
            ∧ (∀ status dt, x.1 = Raise (HTTPException status dt) →
                            code dt ≠ "INVALID_CUSTOMER"
                            ∧ code dt ≠ "INVALID_ADDRESS_FOR_CUSTOMER")
            ∧ (∀ s o, s ∈ commits x.2 → orders s !! next_order_id d = Some o →
                      models.address_id o = schemas.address_id p)
            ∧ ∀ f, post_orders (with_customers f w) p cid d = x) as Hpair.
  { intros [res st]. done. }
  apply Hpair. clear Hpair.
  apply (wp_post_orders w p cid d
           (λ res st,
              (∀ req, req ∈ outbound st → is_customer_lookup req = false)
              ∧ (∀ status dt, res = Raise (HTTPException status dt) →
                              code dt ≠ "INVALID_CUSTOMER"
                              ∧ code dt ≠ "INVALID_ADDRESS_FOR_CUSTOMER")
              ∧ (∀ s o, s ∈ commits st → orders s !! next_order_id d = Some o →
                        models.address_id o = schemas.address_id p)
              ∧ ∀ f, post_orders (with_customers f w) p cid d = (res, st))).
  run_flow.
  all: split; [intros req Hreq; which_request Hreq; reflexivity|].
  all: split; [intros status dt Heq; simplify_eq; split; discriminate|].
  all: split; [intros snap row Hs Hrow; which_request Hs;
               cbn [orders] in Hrow;
               rewrite lookup_insert_eq in Hrow; by simplify_eq|].
  all: intros customers; transfer_answers customers w.
  all: unfold post_orders; apply wp_run_eq; run_flow; reflexivity.
Qed.

Lemma supplied_email_skips_customer_lookup_witness :
  post_orders (with_customers (λ _ _, TransportError) all_well)
    (order_request (Some 999) two_lines (Some "guest@example.com")) "cid" empty_db
  = post_orders all_well
      (order_request (Some 999) two_lines (Some "guest@example.com")) "cid" empty_db.
Proof.
  destruct (supplied_email_skips_customer_lookup all_well
              (order_request (Some 999) two_lines (Some "guest@example.com"))
              "cid" empty_db eq_refl) as (_ & _ & _ & H).
  apply (H (λ _ _, TransportError)).
Defined.

(** ** The predicates against the code *)

(** [customer_validated] says exactly that step 1 of [create_order]
    returns. *)
Lemma customer_validated_iff_step_returns (w : World)
    (p : schemas.CreateOrderRequest) (cid : string) (st : State) :
  customer_validated w p cid ↔
  ∃ e st',
    (if truthy (schemas.customer_email p)
     then ret (schemas.customer_email p)
     else validate_customer_and_address w (schemas.customer_id p)
            (schemas.address_id p) cid) st = (Return e, st').
Proof.
  unfold customer_validated.
  destruct (truthy (schemas.customer_email p)) eqn:Ht.
  { split; [intros _; by eexists _, _ | by left]. }
  unfold validate_customer_and_address, bind, client_send, json, ret, raise.
  destruct (respond w _) as [r|] eqn:Hr.
  2:{ split; [intros [?|(? & ? & ? & _)]; done | intros (? & ? & ?); done]. }
  destruct (Z.eqb (status_code r) 200) eqn:Hs; cbn [negb].
  2:{ apply Z.eqb_neq in Hs.
      split; [intros [?|(? & ? & ? & ? & _)]; [done|congruence]
             | intros (? & ? & ?); done]. }
  apply Z.eqb_eq in Hs.
  destruct (body r) as [data|] eqn:Hb.
  2:{ split; [intros [?|(? & ? & ? & ? & ? & _)]; [done|congruence]
             | intros (? & ? & ?); done]. }
  destruct (schemas.address_id p) as [a|] eqn:Ha.
  2:{ split; [intros _; by eexists _, _|].
      intros _. right. exists r, data. by repeat split. }
  destruct (existsb _ _) eqn:Hex; cbn [negb].
  - split; [intros _; by eexists _, _|].
    intros _. right. exists r, data. repeat split; try done.
    intros a' Ha'. injection Ha' as <-. by apply existsb_eqb_elem.
  - split; [|intros (? & ? & ?); done].
    intros [?|(r' & data' & Hr' & _ & Hb' & Hin)]; [done|].
    simplify_eq. specialize (Hin _ eq_refl).
    apply existsb_eqb_elem in Hin. congruence.
Qed.

(** [charged] says exactly that [call_payment_service] returns [True], and
    [declined] that it returns [False]. *)
Lemma charged_iff_payment_ok (w : World) (order : models.Order)
    (method : string) (email : option string) (cid : string) (st : State)
    (r : Response) :
  respond w (charge_request order method email cid) = Replied r →
  (charged r ↔ (call_payment_service w order method email cid st).1 = Return true)
  ∧ (declined r ↔ (call_payment_service w order method email cid st).1 = Return false).
Proof.
  intros Hr. unfold charged, declined, call_payment_service, bind, client_send,
    json, ret, raise. rewrite Hr.
  destruct (Z.eqb (status_code r) 201) eqn:Hs;
    [apply Z.eqb_eq in Hs | apply Z.eqb_neq in Hs].
  2:{ split; (split; [intros H|intros H]); try done; try by left.
      by destruct H. }
  destruct (body r) as [data|] eqn:Hb.
  2:{ split; (split; [intros H|intros H]); try done.
      - by destruct H as (_ & ? & ? & _).
      - by destruct H as [?|(? & ? & _)]. }
  destruct (bool_decide (j_status data = Some "SUCCESS")) eqn:Hd;
    [apply bool_decide_eq_true in Hd | apply bool_decide_eq_false in Hd]; cbn.
  - split; (split; [intros H|intros H]); try done.
    + split; [done|]. by exists data.
    + destruct H as [?|(? & ? & ?)]; [done|]. by simplify_eq.
  - split; (split; [intros H|intros H]); try done.
    + destruct H as (_ & ? & ? & ?). by simplify_eq.
    + right. by exists data.
Qed.

(** ** The scenarios of the spec *)

(** Customer 1 orders two of item 10 and one of item 11 for address 100 and
    every collaborator succeeds: 201, order_total 13, OUT_FOR_DELIVERY. *)
Example scenario_all_succeed :
  let out := post_orders all_well (order_request (Some 100) two_lines None)
               "cid" empty_db in
  out.1 = Return {| models.order_id := 1; models.customer_id := 1;
                    models.restaurant_id := 5; models.address_id := Some 100;
                    models.order_status := "OUT_FOR_DELIVERY";
                    models.order_total := 13;
                    models.payment_status := "SUCCESS";
                    models.created_at := 0 |}
  ∧ response_status out.1 = 201
  ∧ status_trace 1 (commits out.2)
    = ["PENDING_PAYMENT"; "CONFIRMED"; "OUT_FOR_DELIVERY"]
  ∧ length (items_of (database out.2) 1) = 2%nat.
Proof. vm_compute. repeat split. Qed.

(** The same request when the payment service declines: 402, and the stored
    order is in PAYMENT_FAILED. *)
Example scenario_payment_declined :
  let w := scripted (reply 200 (Some customer_1)) (reply 200 (Some (priced 13)))
             (reply 402 None) (reply 201 None) (reply 200 None) in
  let out := post_orders w (order_request (Some 100) two_lines None) "cid" empty_db in
  response_status out.1 = 402
  ∧ status_trace 1 (commits out.2) = ["PENDING_PAYMENT"; "PAYMENT_FAILED"].
Proof. vm_compute. repeat split. Qed.

(** * Further properties of the code *)

(** ** notify *)

(** X1.  [notify] is best effort: it never raises, it leaves the session,
    the store, the commits and the counter as they are, and it sends one
    e-mail request when the notification URL and the recipient are both
    non-empty, and none otherwise, whatever the notification service
    answers. *)
Theorem notify_is_best_effort (w : World) (event_type : string)
    (recipient : option string) (subject message cid : string) (st : State) :
  (notify w event_type recipient subject message cid st).1 = Return tt
  ∧ db_sess (notify w event_type recipient subject message cid st).2 = db_sess st
  ∧ database (notify w event_type recipient subject message cid st).2 = database st
  ∧ commits (notify w event_type recipient subject message cid st).2 = commits st
  ∧ ORDERS_CREATED (notify w event_type recipient subject message cid st).2
    = ORDERS_CREATED st
  ∧ outbound (notify w event_type recipient subject message cid st).2
    = (if negb (String.eqb (NOTIFICATION_SERVICE_URL w) "") && truthy recipient
       then outbound st
              ++ [email_request event_type recipient subject message cid]
       else outbound st)%list.
Proof.
  unfold notify, swallow, client_send, ret.
  destruct (negb (String.eqb (NOTIFICATION_SERVICE_URL w) "") && truthy recipient);
    cbn [negb]; [|done].
  by destruct (respond w _).
Qed.

(** What is known of [w] outside the notification service holds of
    [with_notifications f w]. *)
Ltac transfer_to_notifications f w :=
  repeat match goal with
         | H : respond w ?req = ?x |- _ =>
             lazymatch req with
             | email_request _ _ _ _ _ => fail
             | _ =>
                 lazymatch goal with
                 | _ : respond (with_notifications f w) req = x |- _ => fail
                 | _ => assert (respond (with_notifications f w) req = x)
                     by exact H
                 end
             end
         end.

(** X2.  The answer of the notification service, or its failure, changes
    nothing: the result of create_order and everything it leaves behind are
    the same under any notification service. *)
Theorem notification_outcome_is_irrelevant (w : World)
    (p : schemas.CreateOrderRequest) (cid : string) (d : Db)
    (f : EmailPayload → gmap string string → Outcome) :
  post_orders (with_notifications f w) p cid d = post_orders w p cid d.
Proof.
  assert (∀ x : Result models.Order * State,
            post_orders (with_notifications f w) p cid d = (x.1, x.2) →
            post_orders (with_notifications f w) p cid d = x) as Hpair.
  { by intros [res st]. }
  apply Hpair. clear Hpair.
  apply (wp_post_orders w p cid d
           (λ res st, post_orders (with_notifications f w) p cid d = (res, st))).
  run_flow.
  all: transfer_to_notifications f w.
  all: unfold post_orders; apply wp_run_eq; run_flow; reflexivity.
Qed.

(** ** What create_order leaves of the store *)

Lemma rows_of_order (oid : Z) (new : list models.OrderItem) (l : list ItemDetail) :
  Forall2 (row_of oid) new l → Forall (λ oi, models.oi_order_id oi = oid) new.
Proof. induction 1 as [|oi x new l (Ho & _) _ IH]; by constructor. Qed.

(** X3.  create_order never changes or removes a row that was there: every
    other order is stored as before, and the order_items table is the old
    one followed by rows of the new order only. *)
Theorem existing_rows_untouched (w : World) (p : schemas.CreateOrderRequest)
    (cid : string) (d : Db) :
  (∀ k, k ≠ next_order_id d →
        orders (database (post_orders w p cid d).2) !! k = orders d !! k)
  ∧ ∃ new,
      order_items (database (post_orders w p cid d).2)
      = (order_items d ++ new)%list
      ∧ Forall (λ oi, models.oi_order_id oi = next_order_id d) new.
Proof.
  apply (wp_post_orders w p cid d
           (λ _ st,
              (∀ k, k ≠ next_order_id d →
                    orders (database st) !! k = orders d !! k)
              ∧ ∃ new,
                  order_items (database st) = (order_items d ++ new)%list
                  ∧ Forall (λ oi, models.oi_order_id oi = next_order_id d) new)).
  run_flow.
  all: split; [intros n Hn; by rewrite ?lookup_insert_ne by done|].
  all: try (exists []; split; [by rewrite app_nil_r | constructor]; fail).
  all: match goal with
       | H : add_rows ?oid ?l ?rows = (Return tt, ?rows') |- _ =>
           destruct (add_rows_app oid l rows rows' H) as (new & -> & HF)
       end.
  all: exists new; split; [reflexivity | exact (rows_of_order _ _ _ HF)].
Qed.

Lemma db_wf_new_order (d : Db) (l : list ItemDetail) (os : gmap Z models.Order)
    (rows' : list models.OrderItem) :
  db_wf d →
  add_rows (next_order_id d) l (order_items d) = (Return tt, rows') →
  (∀ k, is_Some (orders d !! k) → is_Some (os !! k)) →
  is_Some (os !! next_order_id d) →
  db_wf {| orders := os; order_items := rows' |}.
Proof.
  intros Hwf (new & -> & HF)%add_rows_app Hold Hnew oi.
  cbn [orders order_items].
  intros [Hin|Hin]%elem_of_app.
  - by apply Hold, Hwf.
  - apply rows_of_order in HF. rewrite Forall_forall in HF.
    by rewrite (HF _ Hin).
Qed.

Lemma is_Some_insert_mono (m : gmap Z models.Order) (i k : Z) (x : models.Order) :
  is_Some (m !! k) → is_Some (<[i := x]> m !! k).
Proof. intros H. apply lookup_insert_is_Some'. by right. Qed.

(** X4.  Referential integrity is kept: when every stored OrderItem points
    to a stored Order before the request, the same holds of the store the
    request leaves, on every path. *)
Theorem referential_integrity_kept (w : World) (p : schemas.CreateOrderRequest)
    (cid : string) (d : Db) :
  db_wf d → db_wf (database (post_orders w p cid d).2).
Proof.
  intros Hwf.
  apply (wp_post_orders w p cid d (λ _ st, db_wf (database st))).
  run_flow; try exact Hwf.
  all: eapply db_wf_new_order; [exact Hwf | eassumption | |].
  all: try (intros n Hn; by repeat apply is_Some_insert_mono).
  all: rewrite lookup_insert_eq; eauto.
Qed.

Lemma referential_integrity_kept_witness :
  db_wf (database (post_orders all_well (order_request (Some 100) two_lines None)
                     "cid" empty_db).2).
Proof.
  apply (referential_integrity_kept all_well
           (order_request (Some 100) two_lines None) "cid" empty_db).
  intros oi Hoi. by apply elem_of_nil in Hoi.
Defined.

(** X5.  In every snapshot the flow commits, its order is stored under the
    id it was given, with the customer, restaurant and address of the
    request and the creation time of step 3, all unchanged by the later
    updates, and with one of the four pairs of order_status and
    payment_status: PENDING_PAYMENT/PENDING, PAYMENT_FAILED/FAILED,
    CONFIRMED/SUCCESS, OUT_FOR_DELIVERY/SUCCESS. *)
Theorem committed_order_is_coherent (w : World) (p : schemas.CreateOrderRequest)
    (cid : string) (d : Db) :
  Forall (λ s, ∃ o, orders s !! next_order_id d = Some o
                    ∧ coherent o
                    ∧ models.order_id o = next_order_id d
                    ∧ models.customer_id o = schemas.customer_id p
                    ∧ models.restaurant_id o = schemas.restaurant_id p
                    ∧ models.address_id o = schemas.address_id p
                    ∧ models.created_at o = utcnow w)
    (commits (post_orders w p cid d).2).
Proof.
  apply (wp_post_orders w p cid d
           (λ _ st,
              Forall (λ s, ∃ o, orders s !! next_order_id d = Some o
                                ∧ coherent o
                                ∧ models.order_id o = next_order_id d
                                ∧ models.customer_id o = schemas.customer_id p
                                ∧ models.restaurant_id o = schemas.restaurant_id p
                                ∧ models.address_id o = schemas.address_id p
                                ∧ models.created_at o = utcnow w)
                (commits st))).
  run_flow.
  all: repeat (apply Forall_cons; split); try apply Forall_nil.
  all: eexists; (split; [apply lookup_insert_eq|]).
  all: split; [|done].
  all: unfold coherent; cbn.
  all: first [ by left | by right; left | by right; right; left
             | by right; right; right ].
Qed.

(** ** What create_order sends *)

Ltac each_request :=
  repeat (apply Forall_cons; split); try (by apply Forall_nil).

(** X6.  A charge is sent only for an order that is in the store: its
    order_id is the id of the order the flow created, its amount is that
    order's stored order_total, its method is the request's payment_method,
    its reference is "ORDER-{order_id}" and force_fail is false. *)
Theorem charge_is_for_the_stored_order (w : World)
    (p : schemas.CreateOrderRequest) (cid : string) (d : Db) :
  Forall (λ req,
            match req with
            | PostCharge pl _ =>
                c_order_id pl = next_order_id d
                ∧ c_method pl = schemas.payment_method p
                ∧ c_force_fail pl = false
                ∧ c_reference pl = "ORDER-" +:+ pretty (next_order_id d)
                ∧ ∃ o, orders (database (post_orders w p cid d).2)
                         !! next_order_id d = Some o
                       ∧ c_amount pl = models.order_total o
            | _ => True
            end)
    (outbound (post_orders w p cid d).2).
Proof.
  apply (wp_post_orders w p cid d
           (λ _ st,
              Forall (λ req,
                        match req with
                        | PostCharge pl _ =>
                            c_order_id pl = next_order_id d
                            ∧ c_method pl = schemas.payment_method p
                            ∧ c_force_fail pl = false
                            ∧ c_reference pl
                              = "ORDER-" +:+ pretty (next_order_id d)
                            ∧ ∃ o, orders (database st) !! next_order_id d = Some o
                                   ∧ c_amount pl = models.order_total o
                        | _ => True
                        end)
                (outbound st))).
  run_flow.
  all: each_request; try exact I.
  all: do 4 (split; [reflexivity|]).
  all: eexists; split; [apply lookup_insert_eq | reflexivity].
Qed.

(** X7.  The collaborators are called in one fixed order, customer, menu,
    payment, delivery, notification, and each at most once: there is no
    retry on any path. *)
Theorem calls_in_order_at_most_once (w : World)
    (p : schemas.CreateOrderRequest) (cid : string) (d : Db) :
  StronglySorted lt (stage <$> outbound (post_orders w p cid d).2).
Proof.
  apply (wp_post_orders w p cid d
           (λ _ st, StronglySorted lt (stage <$> outbound st))).
  run_flow.
  all: cbn; repeat (constructor; [|each_request; lia]); constructor.
Qed.

Lemma charge_request_correlation (order : models.Order) (method : string)
    (email : option string) (cid : string) :
  request_headers (charge_request order method email cid) !! "X-Correlation-Id"
  = Some cid.
Proof.
  unfold charge_request. cbn [request_headers].
  rewrite lookup_insert_ne by done.
  destruct (truthy email); [rewrite lookup_insert_ne by done|];
    apply lookup_singleton_eq.
Qed.

(** X8.  Every request create_order sends, to any collaborator and on any
    path, carries the correlation id of the inbound request in its
    X-Correlation-Id header. *)
Theorem every_request_carries_correlation_id (w : World)
    (p : schemas.CreateOrderRequest) (cid : string) (d : Db) :
  Forall (λ req, request_headers req !! "X-Correlation-Id" = Some cid)
    (outbound (post_orders w p cid d).2).
Proof.
  apply (wp_post_orders w p cid d
           (λ _ st,
              Forall (λ req, request_headers req !! "X-Correlation-Id" = Some cid)
                (outbound st))).
  run_flow.
  all: each_request.
  all: first [ apply charge_request_correlation
             | unfold customer_request, validate_items_request, assign_request,
                 email_request; cbn [request_headers];
               apply lookup_singleton_eq ].
Qed.

Ltac resolve_contact :=
  unfold contact_email;
  repeat (progress
            (repeat match goal with
                    | H : truthy (schemas.customer_email _) = _ |- _ => rewrite H
                    | H : respond _ (customer_request _ _) = _ |- _ => rewrite H
                    | H : body _ = _ |- _ => rewrite H
                    end;
             cbn [mbind option_bind])).

(** X9.  The delivery service is asked only for the order the flow created
    and only once that order is stored with payment_status SUCCESS; a
    notification is sent only when the operation returns its Order, to the
    non-empty contact address of step 1, as event ORDER_CREATED, and its
    texts name the id, the total and the final status of the returned
    Order. *)
Theorem delivery_and_notification_follow_success (w : World)
    (p : schemas.CreateOrderRequest) (cid : string) (d : Db) :
  Forall (λ req,
            match req with
            | PostAssign n _ =>
                n = next_order_id d
                ∧ ∃ o, orders (database (post_orders w p cid d).2) !! n = Some o
                       ∧ models.payment_status o = "SUCCESS"
            | PostEmail e _ =>
                ∃ o, (post_orders w p cid d).1 = Return o
                     ∧ truthy (contact_email w p cid) = true
                     ∧ e_recipient e = default "" (contact_email w p cid)
                     ∧ e_event_type e = "ORDER_CREATED"
                     ∧ e_correlation_id e = cid
                     ∧ e_subject e
                       = "Order #" +:+ pretty (models.order_id o)
                           +:+ " placed successfully"
                     ∧ e_message e
                       = "Your order total is "
                           +:+ str_float w (models.order_total o)
                           +:+ ". Status: " +:+ models.order_status o
            | _ => True
            end)
    (outbound (post_orders w p cid d).2).
Proof.
  apply (wp_post_orders w p cid d
           (λ res st,
              Forall (λ req,
                        match req with
                        | PostAssign n _ =>
                            n = next_order_id d
                            ∧ ∃ o, orders (database st) !! n = Some o
                                   ∧ models.payment_status o = "SUCCESS"
                        | PostEmail e _ =>
                            ∃ o, res = Return o
                                 ∧ truthy (contact_email w p cid) = true
                                 ∧ e_recipient e
                                   = default "" (contact_email w p cid)
                                 ∧ e_event_type e = "ORDER_CREATED"
                                 ∧ e_correlation_id e = cid
                                 ∧ e_subject e
                                   = "Order #" +:+ pretty (models.order_id o)
                                       +:+ " placed successfully"
                                 ∧ e_message e
                                   = "Your order total is "
                                       +:+ str_float w (models.order_total o)
                                       +:+ ". Status: " +:+ models.order_status o
                        | _ => True
                        end)
                (outbound st))).
  run_flow.
  all: each_request; try exact I.
  all: try (split; [reflexivity|]; eexists;
            split; [apply lookup_insert_eq | reflexivity]).
  all: eexists; split; [reflexivity|]; resolve_contact.
  all: split; [done|]; by repeat split.
Qed.

Lemma charge_request_customer_email (order : models.Order) (method : string)
    (email : option string) (cid : string) :
  request_headers (charge_request order method email cid) !! "X-Customer-Email"
  = (if truthy email then email else None).
Proof.
  unfold charge_request. cbn [request_headers].
  rewrite lookup_insert_ne by done.
  destruct (truthy email) eqn:He.
  - rewrite lookup_insert_eq. by destruct email.
  - by rewrite lookup_singleton_ne.
Qed.

(** X10.  The charge carries an X-Customer-Email header exactly when the
    contact address of step 1 is non-empty, and then it is that address:
    the request's own customer_email if it has one, else the email of the
    customer's record. *)
Theorem charge_carries_contact_email (w : World)
    (p : schemas.CreateOrderRequest) (cid : string) (d : Db) :
  Forall (λ req,
            is_charge req = true →
            request_headers req !! "X-Customer-Email"
            = (if truthy (contact_email w p cid)
               then contact_email w p cid else None))
    (outbound (post_orders w p cid d).2).
Proof.
  apply (wp_post_orders w p cid d
           (λ _ st,
              Forall (λ req,
                        is_charge req = true →
                        request_headers req !! "X-Customer-Email"
                        = (if truthy (contact_email w p cid)
                           then contact_email w p cid else None))
                (outbound st))).
  run_flow.
  all: each_request; intros Hc; try discriminate Hc.
  all: rewrite charge_request_customer_email; by resolve_contact.
Qed.

Lemma rebuilt_items (l : list schemas.OrderItemRequest) :
  map (λ it, {| schemas.item_id := schemas.item_id it;
                schemas.quantity := schemas.quantity it |}) l = l.
Proof. induction l as [|[i q] l IH]; [done|]. cbn. by rewrite IH. Qed.

(** X11.  The customer service is asked about the customer of the request
    and the restaurant service about the restaurant and the items of the
    request, the same items in the same order. *)
Theorem lookups_carry_the_request (w : World) (p : schemas.CreateOrderRequest)
    (cid : string) (d : Db) :
  Forall (λ req,
            match req with
            | GetCustomer c _ => c = schemas.customer_id p
            | PostValidateItems r its _ =>
                r = schemas.restaurant_id p ∧ its = schemas.items p
            | _ => True
            end)
    (outbound (post_orders w p cid d).2).
Proof.
  apply (wp_post_orders w p cid d
           (λ _ st,
              Forall (λ req,
                        match req with
                        | GetCustomer c _ => c = schemas.customer_id p
                        | PostValidateItems r its _ =>
                            r = schemas.restaurant_id p ∧ its = schemas.items p
                        | _ => True
                        end)
                (outbound st))).
  run_flow.
  all: each_request; try done.
  all: split; [done|]; unfold validate_items_request; by rewrite rebuilt_items.
Qed.

(** ** How create_order fails *)

(** X12.  When step 1 lets the request through, the items list is not
    empty and the restaurant service answers 200 with an object whose valid
    is false or missing, the operation fails with INVALID_MENU_SELECTION
    (400) carrying the collaborator's reason, and no row is created. *)
Theorem invalid_menu_selection_rejected (w : World)
    (p : schemas.CreateOrderRequest) (cid : string) (d : Db)
    (r : Response) (v : JsonObject) :
  customer_validated w p cid →
  schemas.items p ≠ [] →
  respond w (validate_items_request (schemas.restaurant_id p)
               (schemas.items p) cid) = Replied r →
  status_code r = 200 →
  body r = Some v →
  default false (j_valid v) = false →
  (post_orders w p cid d).1
  = Raise (HTTPException 400
             {| code := "INVALID_MENU_SELECTION"; reason := j_reason v;
                detail_order_id := None; correlationId := cid |})
  ∧ database (post_orders w p cid d).2 = d
  ∧ commits (post_orders w p cid d).2 = [].
Proof.
  intros Hc Hitems Hr Hs Hb Hv.
  apply (wp_post_orders w p cid d
           (λ res st,
              res = Raise (HTTPException 400
                             {| code := "INVALID_MENU_SELECTION";
                                reason := j_reason v;
                                detail_order_id := None; correlationId := cid |})
              ∧ database st = d ∧ commits st = [])).
  run_flow; tidy.
  all: try congruence.
  all: try (customer_absurd Hc).
  all: by simplify_eq.
Qed.

Lemma invalid_menu_selection_rejected_witness :
  let v := {| j_email := None; j_addresses := None; j_valid := Some false;
              j_reason := Some "item 11 is sold out"; j_total := None;
              j_items := None; j_status := None |} in
  let w := scripted (reply 200 (Some customer_1)) (reply 200 (Some v))
             TransportError TransportError TransportError in
  let out := post_orders w (order_request (Some 100) two_lines
                              (Some "guest@example.com")) "cid" empty_db in
  out.1 = Raise (HTTPException 400
                   {| code := "INVALID_MENU_SELECTION";
                      reason := Some "item 11 is sold out";
                      detail_order_id := None; correlationId := "cid" |})
  ∧ database out.2 = empty_db
  ∧ commits out.2 = [].
Proof.
  cbv zeta.
  apply (invalid_menu_selection_rejected
           (scripted (reply 200 (Some customer_1))
              (reply 200 (Some {| j_email := None; j_addresses := None;
                                  j_valid := Some false;
                                  j_reason := Some "item 11 is sold out";
                                  j_total := None; j_items := None;
                                  j_status := None |}))
              TransportError TransportError TransportError)
           (order_request (Some 100) two_lines (Some "guest@example.com"))
           "cid" empty_db
           {| status_code := 200;
              body := Some {| j_email := None; j_addresses := None;
                              j_valid := Some false;
                              j_reason := Some "item 11 is sold out";
                              j_total := None; j_items := None;
                              j_status := None |} |}
           {| j_email := None; j_addresses := None; j_valid := Some false;
              j_reason := Some "item 11 is sold out"; j_total := None;
              j_items := None; j_status := None |});
    try reflexivity.
  - by left.
  - discriminate.
Defined.

(** X13.  When the restaurant service declares the selection valid but its
    object lacks the total or the items, the operation ends in an unhandled
    exception (500) before anything is persisted: a KeyError for total when
    that is missing; else, with the items missing, an OverflowError when
    the total is an int too large for a float, and a KeyError for items
    otherwise. *)
Theorem valid_answer_without_total_or_items (w : World)
    (p : schemas.CreateOrderRequest) (cid : string) (d : Db)
    (r : Response) (v : JsonObject) :
  customer_validated w p cid →
  schemas.items p ≠ [] →
  respond w (validate_items_request (schemas.restaurant_id p)
               (schemas.items p) cid) = Replied r →
  status_code r = 200 →
  body r = Some v →
  default false (j_valid v) = true →
  j_total v = None ∨ j_items v = None →
  (post_orders w p cid d).1
  = Raise (match j_total v with
           | None => KeyError "total"
           | Some t =>
               match float_of_number t with
               | None => OverflowError
               | Some _ => KeyError "items"
               end
           end)
  ∧ response_status (post_orders w p cid d).1 = 500
  ∧ database (post_orders w p cid d).2 = d
  ∧ commits (post_orders w p cid d).2 = [].
Proof.
  intros Hc Hitems Hr Hs Hb Hv Hmissing.
  apply (wp_post_orders w p cid d
           (λ res st,
              res = Raise (match j_total v with
                           | None => KeyError "total"
                           | Some t =>
                               match float_of_number t with
                               | None => OverflowError
                               | Some _ => KeyError "items"
                               end
                           end)
              ∧ response_status res = 500
              ∧ database st = d ∧ commits st = [])).
  run_flow; tidy.
  all: try congruence.
  all: try (customer_absurd Hc).
  all: simplify_eq.
  all: repeat match goal with
              | H : j_total _ = _ |- _ => rewrite H in *
              | H : float_of_number _ = _ |- _ => rewrite H in *
              end.
  all: try done.
  all: destruct Hmissing; congruence.
Qed.

Lemma valid_answer_without_total_or_items_witness :
  let v := {| j_email := None; j_addresses := None; j_valid := Some true;
              j_reason := None; j_total := None; j_items := Some [];
              j_status := None |} in
  let w := scripted (reply 200 (Some customer_1)) (reply 200 (Some v))
             TransportError TransportError TransportError in
  let out := post_orders w (order_request (Some 100) two_lines
                              (Some "guest@example.com")) "cid" empty_db in
  out.1 = Raise (KeyError "total")
  ∧ response_status out.1 = 500
  ∧ database out.2 = empty_db
  ∧ commits out.2 = [].
Proof.
  cbv zeta.
  apply (valid_answer_without_total_or_items
           (scripted (reply 200 (Some customer_1))
              (reply 200 (Some {| j_email := None; j_addresses := None;
                                  j_valid := Some true; j_reason := None;
                                  j_total := None; j_items := Some [];
                                  j_status := None |}))
              TransportError TransportError TransportError)
           (order_request (Some 100) two_lines (Some "guest@example.com"))
           "cid" empty_db
           {| status_code := 200;
              body := Some {| j_email := None; j_addresses := None;
                              j_valid := Some true; j_reason := None;
                              j_total := None; j_items := Some [];
                              j_status := None |} |}
           {| j_email := None; j_addresses := None; j_valid := Some true;
              j_reason := None; j_total := None; j_items := Some [];
              j_status := None |});
    try reflexivity.
  - by left.
  - discriminate.
  - by left.
Defined.

(** X14.  Every HTTPException create_order raises carries the correlation
    id and is one of: 400 INVALID_CUSTOMER, 400 INVALID_ADDRESS_FOR_CUSTOMER,
    400 EMPTY_ORDER, 400 INVALID_MENU_SELECTION, 502 MENU_VALIDATION_FAILED,
    each without an order id and with the store untouched and nothing
    committed, or 402 PAYMENT_FAILED with the id of the order the flow
    created. *)
Theorem raised_errors (w : World) (p : schemas.CreateOrderRequest)
    (cid : string) (d : Db) (status : Z) (dt : Detail) :
  (post_orders w p cid d).1 = Raise (HTTPException status dt) →
  correlationId dt = cid
  ∧ ((status = 402 ∧ code dt = "PAYMENT_FAILED"
      ∧ detail_order_id dt = Some (next_order_id d))
     ∨ ((status, code dt) ∈ [ (400, "INVALID_CUSTOMER");
                              (400, "INVALID_ADDRESS_FOR_CUSTOMER");
                              (400, "EMPTY_ORDER");
                              (400, "INVALID_MENU_SELECTION");
                              (502, "MENU_VALIDATION_FAILED") ]
        ∧ detail_order_id dt = None
        ∧ database (post_orders w p cid d).2 = d
        ∧ commits (post_orders w p cid d).2 = [])).
Proof.
  apply (wp_post_orders w p cid d
           (λ res st,
              res = Raise (HTTPException status dt) →
              correlationId dt = cid
              ∧ ((status = 402 ∧ code dt = "PAYMENT_FAILED"
                  ∧ detail_order_id dt = Some (next_order_id d))
                 ∨ ((status, code dt) ∈ [ (400, "INVALID_CUSTOMER");
                                          (400, "INVALID_ADDRESS_FOR_CUSTOMER");
                                          (400, "EMPTY_ORDER");
                                          (400, "INVALID_MENU_SELECTION");
                                          (502, "MENU_VALIDATION_FAILED") ]
                    ∧ detail_order_id dt = None
                    ∧ database st = d ∧ commits st = [])))).
  run_flow.
  all: intros Hres; try discriminate Hres.
  all: injection Hres as <- <-; split; [reflexivity|].
  all: first [ by left | right ].
  all: split; [|done]; cbn [code detail].
  all: repeat first [ apply list_elem_of_here | apply list_elem_of_further ].
Qed.

Lemma raised_errors_witness :
  let w := scripted (reply 200 (Some customer_1)) (reply 200 (Some (priced 13)))
             (reply 402 None) (reply 201 None) (reply 200 None) in
  let dt := {| code := "PAYMENT_FAILED"; reason := None;
               detail_order_id := Some 1; correlationId := "cid" |} in
  correlationId dt = "cid"
  ∧ ((402 = 402 ∧ code dt = "PAYMENT_FAILED"
      ∧ detail_order_id dt = Some (next_order_id empty_db))
     ∨ ((402, code dt) ∈ [ (400, "INVALID_CUSTOMER");
                           (400, "INVALID_ADDRESS_FOR_CUSTOMER");
                           (400, "EMPTY_ORDER");
                           (400, "INVALID_MENU_SELECTION");
                           (502, "MENU_VALIDATION_FAILED") ]
        ∧ detail_order_id dt = None
        ∧ database (post_orders w (order_request (Some 100) two_lines None)
                      "cid" empty_db).2 = empty_db
        ∧ commits (post_orders w (order_request (Some 100) two_lines None)
                     "cid" empty_db).2 = [])).
Proof.
  cbv zeta.
  apply (raised_errors
           (scripted (reply 200 (Some customer_1)) (reply 200 (Some (priced 13)))
              (reply 402 None) (reply 201 None) (reply 200 None))
           (order_request (Some 100) two_lines None) "cid" empty_db 402
           {| code := "PAYMENT_FAILED"; reason := None;
              detail_order_id := Some 1; correlationId := "cid" |}).
  vm_compute. reflexivity.
Defined.

(** X15.  The ORDERS_CREATED counter is incremented at most once per
    request: with label PAYMENT_FAILED exactly on the 402 path, with label
    CONFIRMED once the order is stored with payment_status SUCCESS, and not
    at all as long as the order, if there is one, is still PENDING. *)
Theorem orders_created_counter (w : World) (p : schemas.CreateOrderRequest)
    (cid : string) (d : Db) :
  (ORDERS_CREATED (post_orders w p cid d).2 = ["PAYMENT_FAILED"]
   ∧ response_status (post_orders w p cid d).1 = 402)
  ∨ (ORDERS_CREATED (post_orders w p cid d).2 = ["CONFIRMED"]
     ∧ response_status (post_orders w p cid d).1 ≠ 402
     ∧ ∃ o, orders (database (post_orders w p cid d).2) !! next_order_id d = Some o
            ∧ models.payment_status o = "SUCCESS")
  ∨ (ORDERS_CREATED (post_orders w p cid d).2 = []
     ∧ response_status (post_orders w p cid d).1 ≠ 402
     ∧ ∀ o, orders (database (post_orders w p cid d).2) !! next_order_id d = Some o →
            models.payment_status o = "PENDING").
Proof.
  apply (wp_post_orders w p cid d
           (λ res st,
              (ORDERS_CREATED st = ["PAYMENT_FAILED"] ∧ response_status res = 402)
              ∨ (ORDERS_CREATED st = ["CONFIRMED"]
                 ∧ response_status res ≠ 402
                 ∧ ∃ o, orders (database st) !! next_order_id d = Some o
                        ∧ models.payment_status o = "SUCCESS")
              ∨ (ORDERS_CREATED st = []
                 ∧ response_status res ≠ 402
                 ∧ ∀ o, orders (database st) !! next_order_id d = Some o →
                        models.payment_status o = "PENDING"))).
  run_flow.
  all: first
         [ by left
         | right; left; split; [reflexivity|]; split; [discriminate|];
           eexists; split; [apply lookup_insert_eq | reflexivity]
         | right; right; split; [reflexivity|]; split; [discriminate|];
           intros o0 Ho;
           first [ rewrite next_order_id_fresh in Ho; discriminate
                 | rewrite lookup_insert_eq in Ho; by simplify_eq ] ].
Qed.

Lemma add_rows_key (oid : Z) (l : list ItemDetail)
    (rows rows' : list models.OrderItem) (k : string) :
  add_rows oid l rows = (Raise (KeyError k), rows') →
  k ∈ ["item_id"; "quantity"; "unit_price"].
Proof.
  revert rows. induction l as [|x l IH]; intros rows; cbn [add_rows]; [done|].
  destruct (d_item_id x); [|intros [= <- _]; by left].
  destruct (d_quantity x); [|intros [= <- _]; right; by left].
  destruct (d_unit_price x); [|intros [= <- _]; right; right; by left].
  apply IH.
Qed.

Lemma add_rows_complete (oid : Z) (l : list ItemDetail)
    (rows rows' : list models.OrderItem) (x : ItemDetail) :
  add_rows oid l rows = (Return tt, rows') →
  x ∈ l →
  is_Some (d_item_id x) ∧ is_Some (d_quantity x) ∧ is_Some (d_unit_price x).
Proof.
  intros (new & _ & HF)%add_rows_app Hx.
  induction HF as [|oi y new l (_ & Hi & Hq & Hp) _ IH].
  - by apply elem_of_nil in Hx.
  - apply elem_of_cons in Hx as [->|Hx]; [|by apply IH].
    rewrite Hi, Hq, Hp. by repeat split.
Qed.


(** X20.  When the restaurant service declares the selection valid and
    gives a total, but one of its priced items lacks item_id, quantity or
    unit_price, the loop of step 3 raises KeyError after the order was
    flushed and before the commit: the operation ends in a 500, nothing is
    committed, the store is untouched and no charge is sent. *)
Theorem incomplete_priced_item_raises (w : World)
    (p : schemas.CreateOrderRequest) (cid : string) (d : Db)
    (r : Response) (v : JsonObject) (t : JNumber) (ds : list ItemDetail)
    (x : ItemDetail) :
  customer_validated w p cid →
  schemas.items p ≠ [] →
  respond w (validate_items_request (schemas.restaurant_id p)
               (schemas.items p) cid) = Replied r →
  status_code r = 200 →
  body r = Some v →
  default false (j_valid v) = true →
  j_total v = Some t →
  is_Some (float_of_number t) →
  j_items v = Some ds →
  x ∈ ds →
  d_item_id x = None ∨ d_quantity x = None ∨ d_unit_price x = None →
  (∃ k, (post_orders w p cid d).1 = Raise (KeyError k)
        ∧ k ∈ ["item_id"; "quantity"; "unit_price"])
  ∧ response_status (post_orders w p cid d).1 = 500
  ∧ database (post_orders w p cid d).2 = d
  ∧ commits (post_orders w p cid d).2 = []
  ∧ Forall (λ req, is_charge req = false) (outbound (post_orders w p cid d).2).
Proof.
  intros Hc Hitems Hr Hs Hb Hv Ht [f Hf] Hds Hx Hmissing.
  apply (wp_post_orders w p cid d
           (λ res st,
              (∃ k, res = Raise (KeyError k)
                    ∧ k ∈ ["item_id"; "quantity"; "unit_price"])
              ∧ response_status res = 500
              ∧ database st = d
              ∧ commits st = []
              ∧ Forall (λ req, is_charge req = false) (outbound st))).
  run_flow; tidy.
  all: try congruence.
  all: try (customer_absurd Hc).
  all: simplify_eq.
  all: try match goal with
           | H : add_rows _ _ _ = (Return tt, _) |- _ =>
               exfalso;
               destruct (add_rows_complete _ _ _ _ _ H Hx) as ([] & [] & []);
               destruct Hmissing as [|[|]]; congruence
           end.
  all: split; [eexists; split; [reflexivity|]; by eapply add_rows_key|].
  all: do 3 (split; [done|]).
  all: by repeat (apply Forall_cons; split).
Qed.

Lemma incomplete_priced_item_raises_witness :
  let x := {| d_item_id := Some 11; d_quantity := None;
              d_unit_price := Some 3%float |} in
  let v := {| j_email := None; j_addresses := None; j_valid := Some true;
              j_reason := None; j_total := Some (JInt 13);
              j_items := Some [ {| d_item_id := Some 10; d_quantity := Some 2;
                                   d_unit_price := Some 5%float |}; x ];
              j_status := None |} in
  let w := scripted (reply 200 (Some customer_1)) (reply 200 (Some v))
             (reply 201 (Some (payment "SUCCESS"))) (reply 201 None)
             (reply 200 None) in
  let out := post_orders w (order_request (Some 100) two_lines
                              (Some "guest@example.com")) "cid" empty_db in
  (∃ k, out.1 = Raise (KeyError k) ∧ k ∈ ["item_id"; "quantity"; "unit_price"])
  ∧ response_status out.1 = 500
  ∧ database out.2 = empty_db
  ∧ commits out.2 = []
  ∧ Forall (λ req, is_charge req = false) (outbound out.2).
Proof.
  cbv zeta.
  eapply (incomplete_priced_item_raises _
            (order_request (Some 100) two_lines (Some "guest@example.com"))
            "cid" empty_db
            {| status_code := 200; body := Some _ |} _ (JInt 13) _
            {| d_item_id := Some 11; d_quantity := None;
               d_unit_price := Some 3%float |});
    try reflexivity.
  - by left.
  - discriminate.
  - vm_compute. eauto.
  - right. left.
  - right. by left.
Defined.

(** ** get_order after create_order *)

(** X17.  The Order create_order returns can be fetched: before the request
    GET /v1/orders/{order_id} answers 404 ORDER_NOT_FOUND for its id, and on
    the store the request leaves it returns exactly the Order that was
    returned, without changing anything. *)
Theorem created_order_can_be_fetched (w : World)
    (p : schemas.CreateOrderRequest) (cid cid' : string) (d : Db)
    (o : models.Order) :
  (post_orders w p cid d).1 = Return o →
  get_order (models.order_id o) cid' (fresh_session d)
  = (Raise (HTTPException 404 (detail "ORDER_NOT_FOUND" cid')), fresh_session d)
  ∧ get_order (models.order_id o) cid'
      (fresh_session (database (post_orders w p cid d).2))
    = (Return o, fresh_session (database (post_orders w p cid d).2)).
Proof.
  apply (wp_post_orders w p cid d
           (λ res st,
              res = Return o →
              get_order (models.order_id o) cid' (fresh_session d)
              = (Raise (HTTPException 404 (detail "ORDER_NOT_FOUND" cid')),
                 fresh_session d)
              ∧ get_order (models.order_id o) cid' (fresh_session (database st))
                = (Return o, fresh_session (database st)))).
  run_flow.
  all: intros Hres; try discriminate Hres.
  all: injection Hres as <-.
  all: unfold get_order, bind, get_session, ret, raise, fresh_session;
    cbn [db_sess orders models.order_id models.with_order_status
         models.with_payment_status].
  all: by rewrite next_order_id_fresh, lookup_insert_eq.
Qed.

Lemma created_order_can_be_fetched_witness :
  let out := post_orders all_well (order_request (Some 100) two_lines None)
               "cid" empty_db in
  let o := {| models.order_id := 1; models.customer_id := 1;
              models.restaurant_id := 5; models.address_id := Some 100;
              models.order_status := "OUT_FOR_DELIVERY";
              models.order_total := 13; models.payment_status := "SUCCESS";
              models.created_at := 0 |} in
  get_order (models.order_id o) "cid2" (fresh_session empty_db)
  = (Raise (HTTPException 404 (detail "ORDER_NOT_FOUND" "cid2")),
     fresh_session empty_db)
  ∧ get_order (models.order_id o) "cid2" (fresh_session (database out.2))
    = (Return o, fresh_session (database out.2)).
Proof.
  cbv zeta.
  apply (created_order_can_be_fetched all_well
           (order_request (Some 100) two_lines None) "cid" "cid2" empty_db).
  vm_compute. reflexivity.
Defined.

(** X18.  The order id a PAYMENT_FAILED error carries is the id of a stored
    order: fetching it returns the order the flow created, with order_status
    PAYMENT_FAILED and payment_status FAILED. *)
Theorem failed_order_can_be_fetched (w : World)
    (p : schemas.CreateOrderRequest) (cid cid' : string) (d : Db) (dt : Detail) :
  (post_orders w p cid d).1 = Raise (HTTPException 402 dt) →
  ∃ n o,
    detail_order_id dt = Some n
    ∧ (get_order n cid' (fresh_session (database (post_orders w p cid d).2))).1
      = Return o
    ∧ models.order_id o = n
    ∧ models.order_status o = "PAYMENT_FAILED"
    ∧ models.payment_status o = "FAILED"
    ∧ models.customer_id o = schemas.customer_id p
    ∧ models.restaurant_id o = schemas.restaurant_id p.
Proof.
  apply (wp_post_orders w p cid d
           (λ res st,
              res = Raise (HTTPException 402 dt) →
              ∃ n o,
                detail_order_id dt = Some n
                ∧ (get_order n cid' (fresh_session (database st))).1 = Return o
                ∧ models.order_id o = n
                ∧ models.order_status o = "PAYMENT_FAILED"
                ∧ models.payment_status o = "FAILED"
                ∧ models.customer_id o = schemas.customer_id p
                ∧ models.restaurant_id o = schemas.restaurant_id p)).
  run_flow.
  all: intros Hres; try discriminate Hres.
  all: injection Hres as <-.
  all: eexists _, _; split; [reflexivity|].
  all: unfold get_order, bind, get_session, ret, raise, fresh_session;
    cbn [db_sess orders detail_order_id].
  all: rewrite lookup_insert_eq; by repeat split.
Qed.

Lemma failed_order_can_be_fetched_witness :
  let w := scripted (reply 200 (Some customer_1)) (reply 200 (Some (priced 13)))
             (reply 402 None) (reply 201 None) (reply 200 None) in
  let out := post_orders w (order_request (Some 100) two_lines None) "cid" empty_db in
  ∃ n o,
    detail_order_id {| code := "PAYMENT_FAILED"; reason := None;
                       detail_order_id := Some 1; correlationId := "cid" |}
    = Some n
    ∧ (get_order n "cid2" (fresh_session (database out.2))).1 = Return o
    ∧ models.order_id o = n
    ∧ models.order_status o = "PAYMENT_FAILED"
    ∧ models.payment_status o = "FAILED"
    ∧ models.customer_id o
      = schemas.customer_id (order_request (Some 100) two_lines None)
    ∧ models.restaurant_id o
      = schemas.restaurant_id (order_request (Some 100) two_lines None).
Proof.
  cbv zeta.
  apply (failed_order_can_be_fetched
           (scripted (reply 200 (Some customer_1)) (reply 200 (Some (priced 13)))
              (reply 402 None) (reply 201 None) (reply 200 None))
           (order_request (Some 100) two_lines None) "cid" "cid2" empty_db
           {| code := "PAYMENT_FAILED"; reason := None;
              detail_order_id := Some 1; correlationId := "cid" |}).
  vm_compute. reflexivity.
Defined.

(** ** The helpers *)

Lemma wp_state {A} (c : M A) (st : State) (P : State → Prop) :
  wp c st (λ _ st', P st') → P (c st).2.
Proof. done. Qed.

(** X19.  The four collaborator helpers only send: whatever the answer, and
    whether they return or raise, each leaves the session, the store, the
    commits and the counter as they are and sends exactly one request, its
    own; the menu helper sends none for an empty items list. *)
Theorem helpers_only_send (w : World) (st : State) :
  (∀ customer_id address_id cid,
     only_sent st (validate_customer_and_address w customer_id address_id cid st).2
       [customer_request customer_id cid])
  ∧ (∀ restaurant_id items cid,
       only_sent st (validate_restaurant_and_items w restaurant_id items cid st).2
         (match items with
          | [] => []
          | _ :: _ => [validate_items_request restaurant_id items cid]
          end))
  ∧ (∀ order method email cid,
       only_sent st (call_payment_service w order method email cid st).2
         [charge_request order method email cid])
  ∧ (∀ order_id cid,
       only_sent st (call_delivery_assign w order_id cid st).2
         [assign_request order_id cid]).
Proof.
  destruct st as [sess db cs out oc].
  split; [|split; [|split]]; intros.
  all: apply wp_state; repeat wp_step.
  all: unfold only_sent; cbn [db_sess database commits outbound ORDERS_CREATED];
    by rewrite ?app_nil_r.
Qed.
